(** * Mermaid exporter: a shallow embedding of [src/main.ts]

    The plugin extracts the mermaid code blocks of a note, renders each one
    into an off-screen container, and saves the rendered vector as an SVG or
    PNG file.  This development embeds the pipeline of [main.ts]
    ([extractMermaidBlocks], [renderMermaidToSvg], [saveSvgAsImage] and the
    export handler of [MermaidSelectionModal.onOpen]) and states the
    properties of the specification over it. *)

From Stdlib Require Import ZArith NArith List String Ascii DecimalString.
From Stdlib Require Import QArith Qround Lia Lqa.
From Stdlib Require Import Floats.SpecFloat.
From stdpp Require Import gmap list.

Set Warnings "-register-all".
Local Open Scope nat_scope.

(** ** JavaScript strings

    A JavaScript string is a sequence of UTF-16 code units. *)

Module JS.

Abbreviation jsstring := (list N).

(** An ASCII literal of the source, as code units. *)
Definition lit (s : string) : jsstring :=
  map N_of_ascii (list_ascii_of_string s).

(** The line feed. *)
Definition LF : N := 10%N.

Definition jseqb (a b : jsstring) : bool := bool_decide (a = b).

(** [s.startsWith(p)] *)
Fixpoint startsWith (p s : jsstring) : bool :=
  match p, s with
  | [], _ => true
  | _ :: _, [] => false
  | a :: p', b :: s' => N.eqb a b && startsWith p' s'
  end.

(** [s.substring(a, b)]: both indices are clamped to the length and
    swapped when the first exceeds the second. *)
Definition substring (s : jsstring) (a b : nat) : jsstring :=
  let len := length s in
  let a' := Nat.min a len in
  let b' := Nat.min b len in
  let from := Nat.min a' b' in
  let to := Nat.max a' b' in
  take (to - from) (drop from s).

(** White space and line terminators, the code units [trim] removes:
    TAB, LF, VT, FF, CR, SP, NBSP, U+1680, U+2000..U+200A, U+2028, U+2029,
    U+202F, U+205F, U+3000 and U+FEFF. *)
Definition isSpace (c : N) : bool :=
  ((9 <=? c) && (c <=? 13) || (c =? 32) || (c =? 160) || (c =? 5760)
   || (8192 <=? c) && (c <=? 8202) || (c =? 8232) || (c =? 8233)
   || (c =? 8239) || (c =? 8287) || (c =? 12288) || (c =? 65279))%N.

Fixpoint trimStart (s : jsstring) : jsstring :=
  match s with
  | c :: s' => if isSpace c then trimStart s' else s
  | [] => []
  end.

Definition trimEnd (s : jsstring) : jsstring := rev (trimStart (rev s)).

(** [s.trim()] *)
Definition trim (s : jsstring) : jsstring := trimEnd (trimStart s).

(** [s.replace(re, '')] for a regular expression without the [g] flag: the
    engine tries the pattern at position 0, 1, ... and deletes the first
    match.  The pattern is given as a matcher that, at a position and on the
    rest of the input from there, answers the length of its match. *)
Fixpoint deleteFirstMatch (re : nat -> jsstring -> option nat)
    (pos : nat) (s : jsstring) : jsstring :=
  match re pos s with
  | Some k => drop k s
  | None =>
      match s with
      | [] => []
      | c :: s' => c :: deleteFirstMatch re (S pos) s'
      end
  end.

(** [s.replace(/[...]/g, rep)] for a one-character class: every code unit
    of the class is replaced, left to right. *)
Fixpoint replaceClass (cls : N -> bool) (rep : jsstring) (s : jsstring)
    : jsstring :=
  match s with
  | [] => []
  | c :: s' =>
      if cls c then rep ++ replaceClass cls rep s'
      else c :: replaceClass cls rep s'
  end.

(** A string is truthy when it is not empty. *)
Definition truthy (s : jsstring) : bool :=
  match s with [] => false | _ :: _ => true end.

(** The same for a value that is a string, or else undefined or null. *)
Definition given (s : option jsstring) : bool :=
  match s with Some s => truthy s | None => false end.

(** Decimal digits of a non-negative integer, as the template literal
    [`${n}`] prints it. *)
Definition decimal (n : nat) : jsstring :=
  lit (NilEmpty.string_of_uint (Nat.to_uint n)).

End JS.
Import JS.

(** ** The block extractor *)

Module Extract.

(** [Loc] of the metadata cache: a line and a character offset. *)
Record Loc := { line : nat; offset : nat }.

Record SectionCache := {
  sec_type : jsstring;
  sec_start : Loc;
  sec_end : Loc
}.

Record HeadingCache := {
  hc_heading : jsstring;
  hc_start : Loc
}.

(** [CachedMetadata]: both lists are optional fields. *)
Record CachedMetadata := {
  sections : option (list SectionCache);
  headings : option (list HeadingCache)
}.

Record MermaidBlock := { code : jsstring; heading : jsstring }.

Definition fence : jsstring := lit "```mermaid".
Definition backticks : jsstring := lit "```".
Definition directContent : jsstring := lit "direct content".

(** [/^```mermaid\n?/]: anchored at the start of the input; the newline is
    optional and taken when present. *)
Definition reOpen (pos : nat) (s : jsstring) : option nat :=
  if (pos =? 0) && startsWith fence s then
    match drop (length fence) s with
    | c :: _ => if N.eqb c LF then Some (S (length fence))
                else Some (length fence)
    | [] => Some (length fence)
    end
  else None.

(** [/\n?```$/]: an optional newline, three backticks, end of input. *)
Definition reClose (pos : nat) (s : jsstring) : option nat :=
  if jseqb s (LF :: backticks) then Some 4
  else if jseqb s backticks then Some 3
  else None.

(** [blockContent.replace(/^```mermaid\n?/, '').replace(/\n?```$/, '').trim()] *)
Definition stripFences (blockContent : jsstring) : jsstring :=
  trim (deleteFirstMatch reClose 0 (deleteFirstMatch reOpen 0 blockContent)).

(** The backward scan [for (let i = headings.length - 1; i >= 0; i--)];
    [i] counts the headings not yet visited, so the one inspected is
    [headings[i-1]]. *)
Fixpoint scanHeadings (hs : list HeadingCache) (i : nat) (sline : nat)
    : jsstring :=
  match i with
  | 0 => directContent
  | S j =>
      match hs !! j with
      | Some h =>
          if line (hc_start h) <? sline then hc_heading h
          else scanHeadings hs j sline
      | None => scanHeadings hs j sline
      end
  end.

Definition nearestHeading (hs : list HeadingCache) (sline : nat) : jsstring :=
  scanHeadings hs (length hs) sline.

Definition blockContent (content : jsstring) (s : SectionCache) : jsstring :=
  substring content (offset (sec_start s)) (offset (sec_end s)).

(** The two tests of the loop body. *)
Definition isMermaidSection (content : jsstring) (s : SectionCache) : bool :=
  jseqb (sec_type s) (lit "code") && startsWith fence (blockContent content s).

Definition blockOf (content : jsstring) (hs : list HeadingCache)
    (s : SectionCache) : MermaidBlock :=
  {| code := stripFences (blockContent content s);
     heading := nearestHeading hs (line (sec_start s)) |}.

(** [for (const section of cache.sections) { ... mermaidBlocks.push(...) }] *)
Fixpoint extractLoop (content : jsstring) (hs : list HeadingCache)
    (secs : list SectionCache) : list MermaidBlock :=
  match secs with
  | [] => []
  | s :: rest =>
      if jseqb (sec_type s) (lit "code") then
        if startsWith fence (blockContent content s) then
          blockOf content hs s :: extractLoop content hs rest
        else extractLoop content hs rest
      else extractLoop content hs rest
  end.

(** [extractMermaidBlocks(content, file)]; the argument [cache] is what
    [metadataCache.getFileCache(file)] answered ([None] for [null]). *)
Definition extractMermaidBlocks (content : jsstring)
    (cache : option CachedMetadata) : list MermaidBlock :=
  match cache with
  | None => []
  | Some c =>
      match sections c with
      | None => []
      | Some secs => extractLoop content (default [] (headings c)) secs
      end
  end.

End Extract.


(** ** JavaScript numbers

    A number is an IEEE 754 binary64 value; [SpecFloat] gives the
    arithmetic. *)

Module Num.

Definition number := spec_float.
Definition prec : Z := 53.
Definition emax : Z := 1024.

Definition mul (x y : number) : number := SFmul prec emax x y.

(** The number [m * 2^e], rounded to binary64. *)
Definition dyadic (m e : Z) : number := binary_normalize prec emax m e false.
Definition ofZ (z : Z) : number := dyadic z 0.

(** [!x] on a number: true for zero and NaN. *)
Definition falsy (x : number) : bool :=
  match x with
  | S754_zero _ | S754_nan => true
  | _ => false
  end.

(** The exact value of a finite number ([0] for the others). *)
Definition toQ (x : number) : Q :=
  match x with
  | S754_finite s m e =>
      let n := if s then Zneg m else Zpos m in
      match e with
      | Zneg k => Qmake n (2 ^ k)%positive
      | _ => inject_Z (n * 2 ^ e)
      end
  | _ => 0%Q
  end.

(** The integer part of a number, rounding toward zero; NaN, zeros and
    infinities give 0 (the first steps of the Web IDL conversion to an
    integer type). *)
Definition truncate (x : number) : Z :=
  match x with
  | S754_finite s m e =>
      let a := match e with
               | Zneg k => Z.shiftr (Zpos m) (Zpos k)
               | _ => (Zpos m * 2 ^ e)%Z
               end in
      if s then (- a)%Z else a
  | _ => 0%Z
  end.

(** Conversion to a Web IDL [unsigned long]: truncate, then reduce modulo
    2^32. *)
Definition toUnsignedLong (x : number) : Z := (truncate x mod 2 ^ 32)%Z.

(** Assigning to [canvas.width] or [canvas.height], which reflect an
    [unsigned long] content attribute with a default: a value above
    2^31 - 1 is replaced by the default. *)
Definition canvasDimension (dflt : Z) (x : number) : Z :=
  let n := toUnsignedLong x in
  if (n <=? 2147483647)%Z then n else dflt.

(** Rounding to the nearest integer, halves upward, as [Math.round]. *)
Definition round (x : number) : Z := Qfloor (toQ x + (1 # 2))%Q.

(** Whether the fractional part of a number is one half or more. *)
Definition fractionAtLeastHalf (x : number) : bool :=
  Qle_bool (1 # 2) (toQ x - inject_Z (Qfloor (toQ x))).

End Num.
Import Num.

(** ** The document tree *)

Module Dom.

(** An element carries its tag, its class list, its attributes and, for an
    SVG root, the width and height of [viewBox.baseVal] (zero when there is
    no view box). *)
Inductive node :=
  | Text (data : jsstring)
  | El (tag : jsstring) (classes : list jsstring)
       (attrs : list (jsstring * jsstring)) (viewBox : number * number)
       (children : list node).

Definition copyCodeButton : jsstring := lit "copy-code-button".

Definition hasClass (c : jsstring) (n : node) : bool :=
  match n with
  | El _ cls _ _ _ => existsb (jseqb c) cls
  | Text _ => false
  end.

(** The selector [svg:not(.copy-code-button)]. *)
Definition matchesSvg (n : node) : bool :=
  match n with
  | El tag _ _ _ _ => jseqb tag (lit "svg") && negb (hasClass copyCodeButton n)
  | Text _ => false
  end.

(** An element found in a tree, with its ancestors inside that tree, the
    nearest first. *)
Definition handle := (node * list node)%type.

(** [querySelector]: the first match among the descendants, in tree
    order.  [up] is the chain of ancestors of the nodes searched. *)
Fixpoint queryNode (up : list node) (n : node) : option handle :=
  match n with
  | Text _ => None
  | El _ _ _ _ kids =>
      if matchesSvg n then Some (n, up)
      else
        (fix queryList (ks : list node) : option handle :=
           match ks with
           | [] => None
           | k :: rest =>
               match queryNode (n :: up) k with
               | Some h => Some h
               | None => queryList rest
               end
           end) kids
  end.

Fixpoint queryNodes (up : list node) (ks : list node) : option handle :=
  match ks with
  | [] => None
  | k :: rest =>
      match queryNode up k with
      | Some h => Some h
      | None => queryNodes up rest
      end
  end.

(** [el.closest('.copy-code-button')]: the element itself or its nearest
    ancestor with the class; [outer] are the ancestors above the tree. *)
Definition closestButton (outer : list node) (h : handle) : option node :=
  find (hasClass copyCodeButton) (fst h :: snd h ++ outer).

(** [el.getAttribute(name)] and [el.setAttribute(name, value)]. *)
Definition getAttribute (name : jsstring) (n : node) : option jsstring :=
  match n with
  | El _ _ attrs _ _ => snd <$> find (fun kv => jseqb (fst kv) name) attrs
  | Text _ => None
  end.

Fixpoint setAttr (name value : jsstring) (attrs : list (jsstring * jsstring))
    : list (jsstring * jsstring) :=
  match attrs with
  | [] => [(name, value)]
  | kv :: rest =>
      if jseqb (fst kv) name then (name, value) :: rest
      else kv :: setAttr name value rest
  end.

Definition setAttribute (name value : jsstring) (n : node) : node :=
  match n with
  | El tag cls attrs vb kids => El tag cls (setAttr name value attrs) vb kids
  | Text _ => n
  end.

(** [el.prepend(child)] *)
Definition prepend (child : node) (n : node) : node :=
  match n with
  | El tag cls attrs vb kids => El tag cls attrs vb (child :: kids)
  | Text _ => n
  end.

Definition viewBoxOf (n : node) : number * number :=
  match n with
  | El _ _ _ vb _ => vb
  | Text _ => (S754_zero false, S754_zero false)
  end.

End Dom.
Import Dom.

(** ** The collaborators

    The language and platform functions the code calls are an interface;
    what the render engine, the dialogs and the file system answer during a
    run is an environment. *)

Definition bytes := list Byte.byte.

Class Host := {
  (** [parseFloat(s)] *)
  parseFloat : jsstring -> number;
  (** [x.toString()] on a number *)
  numberToString : number -> jsstring;
  (** [new XMLSerializer().serializeToString(svg)] *)
  serializeToString : node -> jsstring;
  (** [Buffer.from(s)] *)
  bufferFrom : jsstring -> bytes;
  (** [path.join(dir, name)], which never answers the empty path *)
  pathJoin : jsstring -> jsstring -> jsstring;
  pathJoin_truthy : forall dir name, truthy (pathJoin dir name) = true
}.

(** A thrown value; [message] is what [e.message] reads, [None] when the
    value has no such property. *)
Record error := { message : option jsstring }.

Inductive fsEntry := File (data : bytes) | Directory.

(** What the code does to its surroundings, in order. *)
Inductive event :=
  | Notice (msg : jsstring)
  | SetMessage (msg : jsstring)
  | HideNotice
  | CloseModal
  | Render (markup : jsstring)
  | Sleep (ms : nat)
  | CreateCanvas (width height : Z)
  | OpenDirectoryDialog
  | SaveDialog (defaultPath : jsstring)
  | WriteFile (path : jsstring) (data : bytes)
  | OpenPath (path : jsstring).

(** What one call of [MarkdownRenderer.render] does: its promise settles,
    and the container holds [frames i] when it is inspected for the [i]-th
    time. *)
Record rendering := {
  rejects : option error;
  frames : nat -> list node
}.

Record saveDialogResult := {
  sd_canceled : bool;
  sd_filePath : option jsstring
}.

Record openDialogResult := {
  od_canceled : bool;
  od_filePaths : list jsstring
}.

Record env := {
  (** [getComputedStyle(document.body)] *)
  fontTextVariable : jsstring;
  fontFamily : jsstring;
  (** [document.body] and its ancestors *)
  bodyAncestors : list node;
  (** the render engine, by call number and markup *)
  engine : nat -> jsstring -> rendering;
  (** whether [canvas.getContext('2d')] answers a context *)
  context2d : bool;
  (** loading the data URI, drawing it and reading the PNG back *)
  rasterize : jsstring -> Z -> Z -> error + bytes;
  (** whether [remote.dialog] is there *)
  dialogAvailable : bool;
  showSaveDialog : jsstring -> saveDialogResult;
  showOpenDialog : openDialogResult;
  (** whether [fs.writeFileSync] throws on a path *)
  writeError : jsstring -> option error
}.

(** The state the code changes: the children of [document.body] (by element
    identity), the file system, and the record of events. *)
Record world := {
  body : list nat;
  nextId : nat;
  renders : nat;
  files : gmap jsstring fsEntry;
  log : list event
}.

(** ** A state and exception monad *)

Inductive outcome (A : Type) :=
  | Ok (a : A)
  | Throw (e : error).
Arguments Ok {A} a.
Arguments Throw {A} e.

Definition M (A : Type) := world -> outcome A * world.

Definition ret {A} (a : A) : M A := fun w => (Ok a, w).

Definition bind {A B} (m : M A) (k : A -> M B) : M B :=
  fun w =>
    match m w with
    | (Ok a, w') => k a w'
    | (Throw e, w') => (Throw e, w')
    end.

Definition throw {A} (e : error) : M A := fun w => (Throw e, w).

(** [try { m } catch (e) { h e }] *)
Definition tryCatch {A} (m : M A) (h : error -> M A) : M A :=
  fun w =>
    match m w with
    | (Throw e, w') => h e w'
    | r => r
    end.

Notation "'do' x <- m ; k" := (bind m (fun x => k))
  (at level 10, x name, m at level 100, k at level 200).
Notation "'do' '_' <- m ; k" := (bind m (fun _ => k))
  (at level 10, m at level 100, k at level 200).

Definition emit (ev : event) : M unit :=
  fun w => (Ok tt, {| body := body w; nextId := nextId w;
                      renders := renders w; files := files w;
                      log := log w ++ [ev] |}).

(** [for (const x of xs) { f x }] *)
Fixpoint forOf {A} (xs : list A) (f : A -> M unit) : M unit :=
  match xs with
  | [] => ret tt
  | x :: rest => do _ <- f x; forOf rest f
  end.

Definition notice (msg : jsstring) : M unit := emit (Notice msg).

(** The text [`${e.message}`] prints. *)
Definition messageText (e : error) : jsstring :=
  default (lit "undefined") (message e).

(** ** Settings *)

Inductive format := PNG | SVG.

Definition formatName (f : format) : jsstring :=
  match f with PNG => lit "png" | SVG => lit "svg" end.

Record settings := {
  imageScale : number;
  outputFormat : format;
  autoOpen : bool;
  overwrite : bool
}.

(** ** Output file names *)

Module FileName.

(** The character class of the sanitizing expression: backslash, slash,
    colon, asterisk, question mark, double quote, less-than, greater-than,
    vertical bar. *)
Definition reserved : list N := [92; 47; 58; 42; 63; 34; 60; 62; 124]%N.

Definition isReserved (c : N) : bool := existsb (N.eqb c) reserved.

(** [heading.replace(re, '-')], [re] being that class with the [g] flag. *)
Definition sanitize (heading : jsstring) : jsstring :=
  replaceClass isReserved (lit "-") heading.

(** [`${baseName}-${sanitizedHeading}-${index + 1}.${this.settings.format}`] *)
Definition defaultFileName (baseName heading : jsstring) (index : nat)
    (f : format) : jsstring :=
  baseName ++ lit "-" ++ sanitize heading ++ lit "-" ++ decimal (index + 1)
  ++ lit "." ++ formatName f.

End FileName.
Import FileName.

(** ** The render orchestrator, the encoder and the export handler *)

Section Pipeline.

Context `{Host} (E : env) (cfg : settings).

(** [document.body.createDiv()]: a new element, appended to the body. *)
Definition createDiv : M nat :=
  fun w => (Ok (nextId w),
            {| body := body w ++ [nextId w]; nextId := S (nextId w);
               renders := renders w; files := files w; log := log w |}).

(** [document.body.removeChild(el)]: throws when [el] is not a child. *)
Definition removeChild (el : nat) : M unit :=
  fun w =>
    if bool_decide (el ∈ body w) then
      (Ok tt, {| body := filter (fun x => x ≠ el) (body w);
                 nextId := nextId w; renders := renders w;
                 files := files w; log := log w |})
    else (Throw {| message := Some (lit "NotFoundError") |}, w).

(** [await MarkdownRenderer.render(app, markup, container, '/', this)] *)
Definition markdownRender (markup : jsstring) : M rendering :=
  fun w =>
    let r := engine E (renders w) markup in
    let w' := {| body := body w; nextId := nextId w;
                 renders := S (renders w); files := files w;
                 log := log w ++ [Render markup] |} in
    match rejects r with
    | Some e => (Throw e, w')
    | None => (Ok r, w')
    end.

(** A literal of the source that holds double quotes, written here with
    apostrophes in their place. *)
Definition quoted (s : string) : jsstring :=
  map (fun c => if N.eqb c 39 then 34%N else c) (lit s).

Definition rawFont : jsstring :=
  if truthy (fontTextVariable E) then fontTextVariable E
  else if truthy (fontFamily E) then fontFamily E
  else lit "sans-serif".

(** Every double quote of [rawFont] gets a backslash before it. *)
Definition jsonFont : jsstring :=
  replaceClass (N.eqb 34) [92; 34]%N rawFont.

Definition safeCode (code : jsstring) : jsstring :=
  quoted "%%{init: { 'fontFamily': '" ++ jsonFont
  ++ quoted "', 'flowchart': {'htmlLabels': false}, 'sequence': {'actorFontFamily': '"
  ++ jsonFont ++ quoted "', 'noteFontFamily': '" ++ jsonFont
  ++ quoted "', 'messageFontFamily': '" ++ jsonFont
  ++ quoted "'}, 'themeVariables': { 'fontFamily': '" ++ jsonFont
  ++ quoted "', 'fontSize': '16px'} } }%%" ++ [LF] ++ code.

Definition renderMarkup (code : jsstring) : jsstring :=
  lit "```mermaid" ++ [LF] ++ safeCode code ++ [LF] ++ lit "```".

Definition maxRetries : nat := 200.

Definition zero : number := S754_zero false.

(** The container and what is above it, for [closest]. *)
Definition containerAncestors : list node :=
  El (lit "div") [] [] (zero, zero) [] :: bodyAncestors E.

(** One inspection of the container: the candidate of [querySelector],
    kept when [closest] finds no copy button around it. *)
Definition inspect (kids : list node) : option node :=
  match queryNodes [] kids with
  | Some candidate =>
      match closestButton containerAncestors candidate with
      | None => Some (fst candidate)
      | Some _ => None
      end
  | None => None
  end.

(** [for (let i = 0; i < maxRetries; i++) { ... }]; [left] is
    [maxRetries - i]. *)
Fixpoint pollLoop (r : rendering) (left i : nat) : M (option node) :=
  match left with
  | 0 => ret None
  | S left' =>
      match inspect (frames r i) with
      | Some svg => ret (Some svg)
      | None => do _ <- emit (Sleep 50); pollLoop r left' (S i)
      end
  end.

Definition fontStyle : node :=
  El (lit "style") [] [] (zero, zero)
    [Text (lit "
                text, tspan, .node, .label, .messageText, .noteText, .loopText, .actor, .cluster-label, .cluster text, .title, g.cluster text {
                    font-family: " ++ rawFont ++ lit " !important;
                }
            ")].

(** [renderMermaidToSvg(code)] *)
Definition renderMermaidToSvg (code : jsstring) : M (option node) :=
  do tempContainer <- createDiv;
  do r <- markdownRender (renderMarkup code);
  do targetSvg <- pollLoop r maxRetries 0;
  let result := prepend fontStyle <$> targetSvg in
  do _ <- removeChild tempContainer;
  ret result.

(** [svg.getAttribute(name) || dflt] *)
Definition attributeOr (name dflt : jsstring) (svg : node) : jsstring :=
  match getAttribute name svg with
  | Some v => if truthy v then v else dflt
  | None => dflt
  end.

(** The width and height [saveSvgAsImage] works with. *)
Definition dimensions (svg : node) : number * number :=
  let '(width, height) := viewBoxOf svg in
  if falsy width || falsy height then
    (parseFloat (attributeOr (lit "width") (lit "800") svg),
     parseFloat (attributeOr (lit "height") (lit "600") svg))
  else (width, height).

Definition canvasSize (svg : node) : Z * Z :=
  let '(width, height) := dimensions svg in
  (canvasDimension 300 (mul width (imageScale cfg)),
   canvasDimension 150 (mul height (imageScale cfg))).

(** [fs.existsSync(path)] *)
Definition existsSync (path : jsstring) : M bool :=
  fun w => (Ok (bool_decide (is_Some (files w !! path))), w).

(** [fs.writeFileSync(path, buffer)] *)
Definition writeFileSync (path : jsstring) (buffer : bytes) : M unit :=
  fun w =>
    match writeError E path with
    | Some e => (Throw e, w)
    | None =>
        (Ok tt, {| body := body w; nextId := nextId w; renders := renders w;
                   files := <[path := File buffer]> (files w);
                   log := log w ++ [WriteFile path buffer] |})
    end.

Definition targetGiven (targetDirectory : option jsstring) : option jsstring :=
  match targetDirectory with
  | Some dir => if truthy dir then Some dir else None
  | None => None
  end.

(** The image buffer: the serialized markup for SVG, the rasterized canvas
    for PNG, [None] when no drawing context is available. *)
Definition makeBuffer (svg : node) (svgData : jsstring) : M (option bytes) :=
  match outputFormat cfg with
  | SVG => ret (Some (bufferFrom svgData))
  | PNG =>
      let '(cw, ch) := canvasSize svg in
      do _ <- emit (CreateCanvas cw ch);
      if context2d E then
        match rasterize E svgData cw ch with
        | inr buffer => ret (Some buffer)
        | inl e => throw e
        end
      else ret None
  end.

(** Where to write: [None] is the early [return] of the existing-file
    policy or of the missing dialog, [Some finalPath] goes on with a
    [finalPath] that may still be null. *)
Definition choosePath (defaultName : jsstring)
    (targetDirectory : option jsstring) (skipOpen : bool)
    : M (option (option jsstring)) :=
  match targetGiven targetDirectory with
  | Some dir =>
      let finalPath := pathJoin dir defaultName in
      do present <- existsSync finalPath;
      if present && negb (overwrite cfg) then
        do _ <- (if negb skipOpen then
                   notice (lit "File already exists, skipping: " ++ defaultName)
                 else ret tt);
        ret None
      else ret (Some (Some finalPath))
  | None =>
      if negb (dialogAvailable E) then
        do _ <- notice (lit "Electron dialog not available.");
        ret None
      else
        do _ <- emit (SaveDialog defaultName);
        let result := showSaveDialog E defaultName in
        if negb (sd_canceled result) && given (sd_filePath result)
        then ret (Some (sd_filePath result))
        else ret (Some None)
  end.

(** The markup that is encoded: the SVG with its width and height
    attributes set to the scaled dimensions, serialized. *)
Definition scaledMarkup (svg : node) : jsstring :=
  let scale := imageScale cfg in
  let '(width, height) := dimensions svg in
  let svg1 := setAttribute (lit "width")
                (numberToString (mul width scale)) svg in
  let svg2 := setAttribute (lit "height")
                (numberToString (mul height scale)) svg1 in
  serializeToString svg2.

(** [saveSvgAsImage(svg, file, index, heading, targetDirectory, skipOpen)];
    [baseName] is [file.basename]. *)
Definition saveSvgAsImage (svg : node) (baseName : jsstring) (index : nat)
    (heading : jsstring) (targetDirectory : option jsstring)
    (skipOpen : bool) : M unit :=
  tryCatch
    (let svgData := scaledMarkup svg in
     let defaultName :=
       defaultFileName baseName heading index (outputFormat cfg) in
     do buffer <- makeBuffer svg svgData;
     match buffer with
     | None => notice (lit "Failed to create image buffer.")
     | Some buffer =>
         do chosen <- choosePath defaultName targetDirectory skipOpen;
         match chosen with
         | Some (Some finalPath) =>
             if truthy finalPath then
               do _ <- writeFileSync finalPath buffer;
               if autoOpen cfg && negb skipOpen then emit (OpenPath finalPath)
               else ret tt
             else ret tt
         | _ => ret tt
         end
     end)
    (fun e => notice (lit "Save failed: " ++ messageText e)).

(** [this.selected.map((val, idx) => val ? idx : -1).filter(idx => idx !== -1)] *)
Definition selectedIndices (selected : list bool) : list nat :=
  Z.to_nat <$>
    filter (fun idx => idx ≠ (-1)%Z)
      (imap (fun idx (val : bool) => if val then Z.of_nat idx else (-1)%Z)
         selected).

Definition renderFailed (index : nat) : jsstring :=
  lit "Failed to render diagram #" ++ decimal (index + 1)
  ++ lit " (Timeout or not found)".

(** The body of the [for] loop of the export handler. *)
Definition exportOne (blocks : list Extract.MermaidBlock)
    (baseName targetDirectory : jsstring) (isBulk : bool) (index : nat)
    : M unit :=
  match blocks !! index with
  | Some block =>
      do svg <- renderMermaidToSvg (Extract.code block);
      match svg with
      | Some svg =>
          saveSvgAsImage svg baseName index (Extract.heading block)
            (Some targetDirectory) isBulk
      | None => notice (renderFailed index)
      end
  | None =>
      throw {| message :=
                 Some (lit "Cannot read properties of undefined (reading 'code')") |}
  end.

Definition exporting (count : nat) : jsstring :=
  lit "Exporting " ++ decimal count ++ lit " diagram"
  ++ (if count =? 1 then [] else lit "s") ++ lit "...".

(** The click handler of the [Export Selected] button. *)
Definition exportSelected (blocks : list Extract.MermaidBlock)
    (selected : list bool) (baseName : jsstring) : M unit :=
  let indices := selectedIndices selected in
  if length indices =? 0 then notice (lit "No blocks selected")
  else if negb (dialogAvailable E) then
    notice (lit "Electron dialog not available.")
  else
    do _ <- emit OpenDirectoryDialog;
    let result := showOpenDialog E in
    match od_filePaths result with
    | targetDirectory :: _ =>
        if od_canceled result then ret tt
        else
          let isBulk := 1 <? length indices in
          do _ <- emit CloseModal;
          do _ <- notice (exporting (length indices));
          do _ <- tryCatch
                    (do _ <- forOf indices
                               (exportOne blocks baseName targetDirectory isBulk);
                     emit (SetMessage (lit "Export finished.")))
                    (fun e =>
                       do _ <- emit HideNotice;
                       notice (lit "Export failed: " ++ messageText e));
          if isBulk && autoOpen cfg then emit (OpenPath targetDirectory)
          else ret tt
    | [] => ret tt
    end.

End Pipeline.

(** ** Reading a run

    The polling loop as a pure function: what it finds and how many times it
    sleeps. *)

Section Reading.

Context `{Host} (E : env).

Fixpoint polled (r : rendering) (left i : nat) : option node * nat :=
  match left with
  | 0 => (None, 0)
  | S left' =>
      match inspect E (frames r i) with
      | Some svg => (Some svg, 0)
      | None => let '(found, sleeps) := polled r left' (S i) in
                (found, S sleeps)
      end
  end.

(** A computation that leaves the document and the render counter alone,
    whose events all satisfy [Q], and whose value, when it returns one,
    satisfies [R]. *)
Definition steady {A} (Q : event -> Prop) (R : A -> Prop) (m : M A) : Prop :=
  forall w, exists evs,
    body (snd (m w)) = body w /\ nextId (snd (m w)) = nextId w /\
    renders (snd (m w)) = renders w /\
    log (snd (m w)) = log w ++ evs /\ Forall Q evs /\
    match fst (m w) with Ok a => R a | Throw _ => True end.

Definition anything {A} (a : A) : Prop := True.

(** The event of the canvas allocation: one for PNG, none for SVG. *)
Definition canvasEvents (cfg : settings) (svg : node) : list event :=
  match outputFormat cfg with
  | PNG => [CreateCanvas (fst (canvasSize cfg svg)) (snd (canvasSize cfg svg))]
  | SVG => []
  end.

(** The events [saveSvgAsImage] may add; [target] is the path it computes
    when it is given a directory.  It prompts only without one, and with
    one it writes nowhere else. *)
Definition savedEvent (target : option jsstring) (ev : event) : Prop :=
  match ev with
  | Notice _ | CreateCanvas _ _ | OpenPath _ => True
  | WriteFile p _ => forall path, target = Some path -> p = path
  | SaveDialog _ => target = None
  | _ => False
  end.

(** The path [saveSvgAsImage] computes from its directory argument. *)
Definition targetPath (targetDirectory : option jsstring) (name : jsstring)
    : option jsstring :=
  (fun dir => pathJoin dir name) <$> targetGiven targetDirectory.

(** The events one turn of the export loop may add for block [index]. *)
Definition itemEvent (cfg : settings) (blocks : list Extract.MermaidBlock)
    (base dir : jsstring) (index : nat) (ev : event) : Prop :=
  match ev with
  | Render _ | Sleep _ | Notice _ => True
  | _ =>
      exists block,
        blocks !! index = Some block /\
        savedEvent
          (targetPath (Some dir)
             (defaultFileName base (Extract.heading block) index
                (outputFormat cfg))) ev
  end.

(** The events of an export into the directory [dir]: no prompt of any
    kind, and every write goes to the file name of a selected block, built
    from its index in [blocks]. *)
Definition exported (cfg : settings) (blocks : list Extract.MermaidBlock)
    (base dir : jsstring) (indices : list nat) (ev : event) : Prop :=
  match ev with
  | WriteFile p _ =>
      exists k block,
        In k indices /\ blocks !! k = Some block /\
        p = pathJoin dir
              (defaultFileName base (Extract.heading block) k
                 (outputFormat cfg))
  | SaveDialog _ | OpenDirectoryDialog => False
  | _ => True
  end.

(** What the encoding step of [saveSvgAsImage] comes to for an SVG, as a
    value: the buffer, no buffer, or the exception. *)
Definition encoded (cfg : settings) (svg : node) : outcome (option bytes) :=
  match outputFormat cfg with
  | SVG => Ok (Some (bufferFrom (scaledMarkup cfg svg)))
  | PNG =>
      if context2d E then
        match rasterize E (scaledMarkup cfg svg)
                (fst (canvasSize cfg svg)) (snd (canvasSize cfg svg)) with
        | inr buffer => Ok (Some buffer)
        | inl e => Throw e
        end
      else Ok None
  end.

(** The trace one selected block leaves in the events [evs]: the notice of
    its render failure, the notice of its encode failure, or, when files may
    be overwritten and the write goes through, the write of its file. *)
Definition reported (cfg : settings) (base dir : jsstring) (index : nat)
    (block : Extract.MermaidBlock) (r : rendering) (evs : list event) : Prop :=
  match fst (polled r maxRetries 0) with
  | None => In (Notice (renderFailed index)) evs
  | Some svg =>
      match encoded cfg (prepend (fontStyle E) svg) with
      | Throw e => In (Notice (lit "Save failed: " ++ messageText e)) evs
      | Ok None => In (Notice (lit "Failed to create image buffer.")) evs
      | Ok (Some buffer) =>
          let path :=
            pathJoin dir
              (defaultFileName base (Extract.heading block) index
                 (outputFormat cfg)) in
          overwrite cfg = true -> truthy dir = true ->
          writeError E path = None ->
          In (WriteFile path buffer) evs
      end
  end.

(** The events that end a run of the export handler. *)
Definition closing (ev : event) : Prop :=
  match ev with
  | SetMessage _ | HideNotice | Notice _ | OpenPath _ => True
  | _ => False
  end.

(** The prompts among the events of a record. *)
Definition isPrompt (ev : event) : bool :=
  match ev with
  | OpenDirectoryDialog | SaveDialog _ => true
  | _ => false
  end.

(** How many events of a record are render calls. *)
Definition renderCalls (evs : list event) : nat :=
  length (List.filter (fun ev => match ev with Render _ => true | _ => false end) evs).

End Reading.

(** ** A host and runs for the examples *)

Module Sample.

Definition isDigit (c : N) : bool := ((48 <=? c) && (c <=? 57))%N.

(** Reads the leading decimal digits of a string; not a number without
    them. *)
Fixpoint digitsValue (acc : Z) (s : jsstring) : Z :=
  match s with
  | c :: s' =>
      if isDigit c
      then digitsValue (10 * acc + Z.of_N (c - 48)) s'
      else acc
  | [] => acc
  end.

Definition parseDigits (s : jsstring) : number :=
  match s with
  | c :: _ => if isDigit c then ofZ (digitsValue 0 s) else S754_nan
  | [] => S754_nan
  end.

Definition joinWithSlash (dir name : jsstring) : jsstring :=
  dir ++ lit "/" ++ name.

Lemma joinWithSlash_truthy (dir name : jsstring) :
  truthy (joinWithSlash dir name) = true.
Proof. destruct dir; reflexivity. Qed.

(** A host: integers are parsed and printed in decimal, paths are joined
    with a slash, the serializer prints the tag alone. *)
#[export] Instance host : Host := {|
  parseFloat := parseDigits;
  numberToString := fun x => decimal (Z.to_nat (truncate x));
  serializeToString := fun n =>
    match n with
    | El tag _ _ _ _ => lit "<" ++ tag ++ lit "/>"
    | Text s => s
    end;
  bufferFrom := fun s =>
    map (fun c => default Byte.x00 (Byte.of_N (c mod 256)%N)) s;
  pathJoin := joinWithSlash;
  pathJoin_truthy := joinWithSlash_truthy
|}.

(** The diagram the engine draws: a view box of 100.75 by 50.75. *)
Definition drawing : node :=
  El (lit "svg") [] [] (dyadic 403 (-2), dyadic 203 (-2)) [].

(** An engine that draws at once, one that never draws, and one whose
    first render call rejects. *)
Definition draws : rendering :=
  {| rejects := None; frames := fun _ => [drawing] |}.

Definition neverDraws : rendering :=
  {| rejects := None; frames := fun _ => [] |}.

Definition crashes : rendering :=
  {| rejects := Some {| message := Some (lit "Parse error") |};
     frames := fun _ => [] |}.

Definition environment (engine : nat -> jsstring -> rendering) : env :=
  {| fontTextVariable := lit "Inter";
     fontFamily := lit "sans-serif";
     bodyAncestors := [El (lit "body") [lit "theme-dark"] [] (zero, zero) [];
                       El (lit "html") [] [] (zero, zero) []];
     engine := engine;
     context2d := true;
     rasterize := fun _ _ _ => inr [Byte.x89; Byte.x50; Byte.x4e; Byte.x47];
     dialogAvailable := true;
     showSaveDialog := fun _ => {| sd_canceled := true; sd_filePath := None |};
     showOpenDialog := {| od_canceled := false; od_filePaths := [lit "/out"] |};
     writeError := fun _ => None |}.

Definition drawing_env : env := environment (fun _ _ => draws).
Definition idle_env : env := environment (fun _ _ => neverDraws).
Definition crashing_env : env :=
  environment (fun n _ => if n =? 0 then crashes else draws).

Definition config (scale : Z) (f : format) (overwriteFiles : bool) : settings :=
  {| imageScale := ofZ scale; outputFormat := f; autoOpen := true;
     overwrite := overwriteFiles |}.

Definition png : settings := config 1 PNG true.

Definition start : world :=
  {| body := []; nextId := 0; renders := 0; files := ∅; log := [] |}.

(** A world in which the first output file of the note [Notes] is there. *)
Definition taken : world :=
  {| body := []; nextId := 0; renders := 0;
     files := {[ lit "/out/Notes-Sys-Arch-1.png" := File [Byte.x00] ]};
     log := [] |}.

Definition blocks : list Extract.MermaidBlock :=
  [ {| Extract.code := lit "graph TD"; Extract.heading := lit "Sys/Arch" |};
    {| Extract.code := lit "graph LR"; Extract.heading := lit "direct content" |} ].

End Sample.

(** ** What the specification says, in its own words *)

Module Spec.

Import Extract.

(** The section text without its opening fence and the newline that
    follows it. *)
Definition withoutOpeningFence (text : jsstring) : jsstring :=
  match drop (length fence) text with
  | c :: rest => if N.eqb c LF then rest else c :: rest
  | [] => []
  end.


(** The sections of an outline, none when the cache or its section list is
    missing. *)
Definition sectionsOf (cache : option CachedMetadata) : list SectionCache :=
  match cache with
  | Some c => default [] (sections c)
  | None => []
  end.

Definition headingsOf (cache : option CachedMetadata) : list HeadingCache :=
  match cache with
  | Some c => default [] (headings c)
  | None => []
  end.


(** [contextLabel]: the text of the last heading with a strictly smaller
    start line, or the sentinel when there is none. *)
Definition contextLabel (hs : list HeadingCache) (sline : nat)
    (label : jsstring) : Prop :=
  (exists j h,
      hs !! j = Some h /\ line (hc_start h) < sline /\
      (forall k h', j < k -> hs !! k = Some h' -> ~ line (hc_start h') < sline) /\
      label = hc_heading h)
  \/ ((forall k h', hs !! k = Some h' -> ~ line (hc_start h') < sline) /\
      label = lit "direct content").



End Spec.


(** ** Further readings of a run *)

(** A string that neither starts nor ends with white space. *)
Definition trimmed (s : jsstring) : bool :=
  match s with
  | [] => true
  | c :: _ => negb (isSpace c) && negb (isSpace (List.last s c))
  end.

(** The paths opened and the markups rendered, in the order of a record. *)
Definition opened (evs : list event) : list jsstring :=
  flat_map (fun ev => match ev with OpenPath p => [p] | _ => [] end) evs.

Definition rendered (evs : list event) : list jsstring :=
  flat_map (fun ev => match ev with Render m => [m] | _ => [] end) evs.

(** The positions of the ticked boxes, counted from [off]. *)
Fixpoint ticked (off : nat) (selected : list bool) : list nat :=
  match selected with
  | [] => []
  | b :: rest => (if b then [off] else []) ++ ticked (S off) rest
  end.

(** The path a save dialog answered, if it answered one. *)
Definition chosenPath (answer : saveDialogResult) : option jsstring :=
  if negb (sd_canceled answer) && given (sd_filePath answer)
  then sd_filePath answer else None.

(** The event of opening the written file, when files are opened. *)
Definition openEvents (cfg : settings) (skipOpen : bool) (path : jsstring)
    : list event :=
  if autoOpen cfg && negb skipOpen then [OpenPath path] else [].

(** A list of numbers that grows strictly from left to right. *)
Definition increasing (l : list nat) : Prop :=
  forall i j a b, i < j -> l !! i = Some a -> l !! j = Some b -> a < b.

(** A document in which every child of the body is older than the next
    element to be created. *)
Definition fresh (w : world) : Prop :=
  forall x, In x (body w) -> x < nextId w.

(** What ends the run after the loop: the message of the progress notice,
    or the report of the exception caught around the loop. *)
Definition finishEvents (result : outcome unit) : list event :=
  match result with
  | Ok _ => [SetMessage (lit "Export finished.")]
  | Throw e => [HideNotice; Notice (lit "Export failed: " ++ messageText e)]
  end.

(** The opening of the directory after a bulk export. *)
Definition directoryOpened (cfg : settings) (isBulk : bool) (dir : jsstring)
    : list event :=
  if isBulk && autoOpen cfg then [OpenPath dir] else [].

Section Reading2.

Context `{Host} (E : env).

(** The events of [makeBuffer]: the canvas allocation. *)
Definition canvasOnly (ev : event) : Prop :=
  match ev with
  | CreateCanvas _ _ => True
  | _ => False
  end.

(** The events of [choosePath]: notices and the file-save prompt. *)
Definition promptOrNotice (ev : event) : Prop :=
  match ev with
  | Notice _ | SaveDialog _ => True
  | _ => False
  end.

(** A file is opened only when [autoOpen] is on and [skipOpen] is off, and
    then it is the file at [target], when there is one. *)
Definition opensOwnFile (cfg : settings) (skipOpen : bool)
    (target : option jsstring) (ev : event) : Prop :=
  match ev with
  | OpenPath p =>
      autoOpen cfg = true /\ skipOpen = false /\
      forall path, target = Some path -> p = path
  | _ => True
  end.

(** The same for a run of the loop over [indices] into [dir]. *)
Definition opensSelectedFile (cfg : settings)
    (blocks : list Extract.MermaidBlock) (base dir : jsstring)
    (isBulk : bool) (indices : list nat) (ev : event) : Prop :=
  match ev with
  | OpenPath p =>
      autoOpen cfg = true /\ isBulk = false /\
      exists k block,
        In k indices /\ blocks !! k = Some block /\
        (truthy dir = true ->
         p = pathJoin dir
               (defaultFileName base (Extract.heading block) k
                  (outputFormat cfg)))
  | _ => True
  end.

(** The markups of the blocks at [indices], in that order. *)
Definition markupsOf (blocks : list Extract.MermaidBlock)
    (indices : list nat) : list jsstring :=
  flat_map
    (fun k => match blocks !! k with
              | Some block => [renderMarkup E (Extract.code block)]
              | None => []
              end) indices.

End Reading2.

(** ** The selection modal

    [MermaidSelectionModal]: the blocks found and one box for each. *)

Module Modal.

Record state := {
  mermaidBlocks : list Extract.MermaidBlock;
  selected : list bool
}.

(** The constructor: [new Array(mermaidBlocks.length).fill(false)]. *)
Definition create (blocks : list Extract.MermaidBlock) : state :=
  {| mermaidBlocks := blocks; selected := replicate (length blocks) false |}.

(** [this.selected.fill(value)], of the two buttons above the list. *)
Definition selectAll (st : state) : state :=
  {| mermaidBlocks := mermaidBlocks st;
     selected := replicate (length (selected st)) true |}.

Definition deselectAll (st : state) : state :=
  {| mermaidBlocks := mermaidBlocks st;
     selected := replicate (length (selected st)) false |}.

(** [this.selected[index] = checked]: an assignment beyond the end makes
    the array longer, the places in between being empty, which the export
    handler passes over like unticked boxes. *)
Definition assign (index : nat) (checked : bool) (l : list bool) : list bool :=
  if index <? length l then <[index := checked]> l
  else l ++ replicate (index - length l) false ++ [checked].

(** The [onchange] handler of the box of block [index]. *)
Definition check (index : nat) (checked : bool) (st : state) : state :=
  {| mermaidBlocks := mermaidBlocks st;
     selected := assign index checked (selected st) |}.

(** What the user does in the modal.  [renderList] makes one box for each
    block, so a box has an index below the number of blocks. *)
Inductive action :=
  | SelectAll
  | DeselectAll
  | Check (index : nat) (checked : bool).

Definition possible (st : state) (a : action) : Prop :=
  match a with
  | Check index _ => index < length (mermaidBlocks st)
  | _ => True
  end.

Definition act (st : state) (a : action) : state :=
  match a with
  | SelectAll => selectAll st
  | DeselectAll => deselectAll st
  | Check index checked => check index checked st
  end.

(** The states the user can reach from [st] by the actions [acts]. *)
Fixpoint reaches (st : state) (acts : list action) (st' : state) : Prop :=
  match acts with
  | [] => st' = st
  | a :: rest => possible st a /\ reaches (act st a) rest st'
  end.

(** [code.split('\n')] *)
Fixpoint splitLines (s : jsstring) : list jsstring :=
  match s with
  | [] => [[]]
  | c :: rest =>
      if N.eqb c LF then [] :: splitLines rest
      else match splitLines rest with
           | line :: lines => (c :: line) :: lines
           | [] => [[c]]
           end
  end.

(** [lines.join(' ')] *)
Fixpoint joinWith (sep : jsstring) (lines : list jsstring) : jsstring :=
  match lines with
  | [] => []
  | [line] => line
  | line :: rest => line ++ sep ++ joinWith sep rest
  end.

(** The preview of a block in the list: its first two lines that are not
    blank, and three dots when there are more. *)
Definition previewText (code : jsstring) : jsstring :=
  let lines :=
    List.filter (fun l => negb (jseqb (trim l) [])) (splitLines code) in
  joinWith (lit " ") (take 2 lines)
  ++ (if 2 <? length lines then lit "..." else []).

(** [previewText || 'Empty block'] *)
Definition previewLabel (code : jsstring) : jsstring :=
  if truthy (previewText code) then previewText code else lit "Empty block".

End Modal.

(** ** The command *)

Module Command.

(** The active file: its base name, what [vault.read] resolves to or rejects
    with, and what the metadata cache holds for it. *)
Record file := {
  basename : jsstring;
  read : error + jsstring;
  cache : option Extract.CachedMetadata
}.

(** [exportMermaidDiagrams()]; the value is the modal it opens, if any. *)
Definition exportMermaidDiagrams (activeFile : option file)
    : M (option Modal.state) :=
  match activeFile with
  | None => do _ <- notice (lit "No active file."); ret None
  | Some f =>
      match read f with
      | inl e => throw e
      | inr content =>
          let mermaidBlocks :=
            Extract.extractMermaidBlocks content (cache f) in
          if length mermaidBlocks =? 0 then
            do _ <- notice (lit "No mermaid blocks found in this note.");
            ret None
          else ret (Some (Modal.create mermaidBlocks))
      end
  end.

End Command.

(** ** The stored settings

    The settings object as it is at run time: a map from keys to values. *)

Module Stored.

Inductive value :=
  | Number (x : number)
  | Text (s : jsstring)
  | Boolean (b : bool).

(** [DEFAULT_SETTINGS] *)
Definition DEFAULT_SETTINGS : gmap (list N) value :=
  {[ lit "imageScale" := Number (ofZ 2);
     lit "format" := Text (lit "png");
     lit "autoOpen" := Boolean true;
     lit "overwrite" := Boolean true ]}.

(** [loadSettings]: [Object.assign({}, DEFAULT_SETTINGS, data)], with what
    [loadData()] answered ([None] for [null]); the later source wins. *)
Definition loadSettings (data : option (gmap (list N) value))
    : gmap (list N) value :=
  default ∅ data ∪ DEFAULT_SETTINGS.

(** [saveSettings]: [saveData(this.settings)]; the value is the data kept. *)
Definition saveSettings (settings : gmap (list N) value)
    : option (gmap (list N) value) :=
  Some settings.

(** An [onChange] handler of the settings tab: it sets one field and saves. *)
Definition change (key : list N) (v : value) (settings : gmap (list N) value)
    : gmap (list N) value * option (gmap (list N) value) :=
  let settings' := <[key := v]> settings in
  (settings', saveSettings settings').

(** The settings as the pipeline reads them, when every field has the type
    the interface declares. *)
Definition typed (o : gmap (list N) value) : option settings :=
  match o !! lit "imageScale", o !! lit "format",
        o !! lit "autoOpen", o !! lit "overwrite" with
  | Some (Number scale), Some (Text f), Some (Boolean opens),
    Some (Boolean overwrites) =>
      if jseqb f (lit "png") then
        Some {| imageScale := scale; outputFormat := PNG;
                autoOpen := opens; overwrite := overwrites |}
      else if jseqb f (lit "svg") then
        Some {| imageScale := scale; outputFormat := SVG;
                autoOpen := opens; overwrite := overwrites |}
      else None
  | _, _, _, _ => None
  end.

End Stored.

(** ** The header buttons

    [addHeaderButtons] and [onunload] go over the leaves of the workspace;
    of a leaf it matters whether its view is a Markdown view and what its
    header element holds, if it has one. *)

Module Header.

Definition exporterAction : jsstring := lit "mermaid-exporter-action".

Record leaf := {
  markdown : bool;
  headerEl : option (list node)
}.

(** Whether a tree holds an element with the class [c]. *)
Fixpoint carries (c : jsstring) (n : node) : bool :=
  match n with
  | Dom.Text _ => false
  | El _ _ _ _ kids =>
      hasClass c n
      || (fix any (ks : list node) : bool :=
            match ks with
            | [] => false
            | k :: rest => carries c k || any rest
            end) kids
  end.

(** [headerEl.querySelector('.' + c)] finds something. *)
Definition holds (c : jsstring) (kids : list node) : bool :=
  existsb (carries c) kids.

(** A tree after every element with the class [c] was removed from it;
    [None] when the root is one of them. *)
Fixpoint without (c : jsstring) (n : node) : option node :=
  match n with
  | Dom.Text _ => Some n
  | El tag cls attrs vb kids =>
      if hasClass c n then None
      else
        Some (El tag cls attrs vb
                ((fix each (ks : list node) : list node :=
                    match ks with
                    | [] => []
                    | k :: rest =>
                        match without c k with
                        | Some k' => k' :: each rest
                        | None => each rest
                        end
                    end) kids))
  end.

(** [headerEl.querySelectorAll('.' + c).forEach(el => el.remove())] *)
Fixpoint removeAll (c : jsstring) (kids : list node) : list node :=
  match kids with
  | [] => []
  | k :: rest =>
      match without c k with
      | Some k' => k' :: removeAll c rest
      | None => removeAll c rest
      end
  end.

(** The element [view.addAction('image-down', 'Export Mermaid Diagrams', ...)]
    answers, after [addClass('mermaid-exporter-action')]; the host puts it
    into the header. *)
Definition action : node :=
  El (lit "a") [lit "clickable-icon"; lit "view-action"; exporterAction]
    [(lit "aria-label", lit "Export Mermaid Diagrams")] (zero, zero) [].

Definition addButton (l : leaf) : leaf :=
  if markdown l then
    match headerEl l with
    | Some kids =>
        if negb (holds exporterAction kids)
        then {| markdown := markdown l; headerEl := Some (action :: kids) |}
        else l
    | None => l
    end
  else l.

(** [addHeaderButtons()] *)
Definition addHeaderButtons (leaves : list leaf) : list leaf :=
  map addButton leaves.

Definition removeButtons (l : leaf) : leaf :=
  if markdown l then
    match headerEl l with
    | Some kids =>
        {| markdown := markdown l;
           headerEl := Some (removeAll exporterAction kids) |}
    | None => l
    end
  else l.

(** [onunload()] *)
Definition onunload (leaves : list leaf) : list leaf :=
  map removeButtons leaves.

(** A leaf without a button of the plugin in its header. *)
Definition plain (l : leaf) : Prop :=
  markdown l = true ->
  forall kids, headerEl l = Some kids -> holds exporterAction kids = false.

End Header.

(** ** More runs for the examples *)

Module Sample2.

(** A copy button with its icon, as the host puts one on a code block. *)
Definition copyButton : node :=
  El (lit "button") [copyCodeButton] [] (zero, zero)
    [El (lit "svg") [lit "svg-icon"] [] (zero, zero) []].

(** An engine whose container holds the copy button before the drawing. *)
Definition buttonFirst : rendering :=
  {| rejects := None; frames := fun _ => [copyButton; Sample.drawing] |}.

Definition button_env : env := Sample.environment (fun _ _ => buttonFirst).

(** A host whose text font is a quoted name followed by a fallback. *)
Definition quoted_env : env :=
  {| fontTextVariable := quoted "'Inter', sans-serif";
     fontFamily := lit "sans-serif";
     bodyAncestors := [];
     engine := fun _ _ => Sample.draws;
     context2d := true;
     rasterize := fun _ _ _ => inr [Byte.x89; Byte.x50; Byte.x4e; Byte.x47];
     dialogAvailable := true;
     showSaveDialog := fun name =>
       {| sd_canceled := false; sd_filePath := Some (lit "/home/me/" ++ name) |};
     showOpenDialog := {| od_canceled := true; od_filePaths := [] |};
     writeError := fun _ => None |}.

(** A world in which the file the save prompt answers is there already. *)
Definition kept : world :=
  {| body := []; nextId := 0; renders := 0;
     files := {[ lit "/home/me/Notes-Sys-Arch-1.png" := File [Byte.x00] ]};
     log := [] |}.

(** A note of one mermaid block under a heading. *)
Definition noteText : jsstring :=
  lit "# Sys/Arch" ++ [LF] ++ lit "```mermaid" ++ [LF] ++ lit "graph TD"
  ++ [LF] ++ lit "```".

Definition note : Command.file :=
  {| Command.basename := lit "Notes";
     Command.read := inr noteText;
     Command.cache :=
       Some {| Extract.sections :=
                 Some [ {| Extract.sec_type := lit "heading";
                           Extract.sec_start := {| Extract.line := 0; Extract.offset := 0 |};
                           Extract.sec_end := {| Extract.line := 0; Extract.offset := 10 |} |};
                        {| Extract.sec_type := lit "code";
                           Extract.sec_start := {| Extract.line := 1; Extract.offset := 11 |};
                           Extract.sec_end := {| Extract.line := 3; Extract.offset := 34 |} |} ];
               Extract.headings :=
                 Some [ {| Extract.hc_heading := lit "Sys/Arch";
                           Extract.hc_start := {| Extract.line := 0; Extract.offset := 0 |} |} ] |} |}.

(** Two leaves: a Markdown view with a header that has a button of another
    kind, and a view of another kind. *)
Definition leaves : list Header.leaf :=
  [ {| Header.markdown := true;
       Header.headerEl :=
         Some [El (lit "a") [lit "view-action"] [] (zero, zero) []] |};
    {| Header.markdown := false; Header.headerEl := None |} ].

End Sample2.

(** * Properties *)

(** ** Strings *)

Section StringFacts.

Lemma jseqb_true (a b : jsstring) : jseqb a b = true <-> a = b.
Proof. unfold jseqb. apply bool_decide_eq_true. Qed.

Lemma jseqb_false (a b : jsstring) : jseqb a b = false <-> a <> b.
Proof. unfold jseqb. apply bool_decide_eq_false. Qed.

Lemma startsWith_app (p s : jsstring) :
  startsWith p s = true <-> exists rest, s = p ++ rest.
Proof.
  revert s. induction p as [|a p IH]; intros s; simpl.
  - split; eauto.
  - destruct s as [|b s].
    + split; [discriminate | intros [r Hr]; discriminate].
    + rewrite andb_true_iff, N.eqb_eq, IH. split.
      * intros [-> [r ->]]. eauto.
      * intros [r Hr]. injection Hr as -> ->. eauto.
Qed.


Lemma lookup_map {A B} (f : A -> B) (l : list A) (i : nat) :
  map f l !! i = f <$> l !! i.
Proof.
  revert i. induction l as [|a l IH]; intros [|i]; simpl; auto.
Qed.



End StringFacts.

(** ** File names *)

Section FileNameFacts.





End FileNameFacts.

(** ** The block extractor *)

Section ExtractFacts.

Import Extract.

(** The opening expression matches at position 0 of a text that starts with
    the fence, and deletes the fence with the newline after it. *)
Lemma deleteOpen (text : jsstring) :
  startsWith fence text = true ->
  deleteFirstMatch reOpen 0 text = Spec.withoutOpeningFence text.
Proof.
  intros Hs. destruct text as [|c text]; [discriminate|].
  unfold Spec.withoutOpeningFence.
  cbn [deleteFirstMatch]. unfold reOpen. rewrite Hs. cbn [Nat.eqb andb].
  destruct (drop (length fence) (c :: text)) as [|d rest] eqn:Hd.
  - apply drop_ge. apply drop_nil_inv in Hd. exact Hd.
  - assert (Hd' : drop (S (length fence)) (c :: text) = rest).
    { change (S (length fence)) with (1 + length fence).
      rewrite Nat.add_comm, <- drop_drop, Hd. reflexivity. }
    destruct (N.eqb d LF); [exact Hd' | exact Hd].
Qed.



(** The closing expression, when the backticks end the text and no newline
    precedes them. *)
Lemma deleteClose_plain (pos : nat) (x : jsstring) :
  (forall y, x <> y ++ [LF]) ->
  deleteFirstMatch reClose pos (x ++ backticks) = x.
Proof.
  revert pos. induction x as [|c x IH]; intros pos Hx; [reflexivity|].
  cbn [app deleteFirstMatch].
  assert (Hnone : reClose pos (c :: x ++ backticks) = None).
  { unfold reClose.
    destruct (jseqb (c :: x ++ backticks) (LF :: backticks)) eqn:H1.
    { apply jseqb_true in H1. injection H1 as -> Hx1.
      destruct x as [|a x]; [exfalso; apply (Hx []); reflexivity|].
      apply (f_equal length) in Hx1. cbn [app length] in Hx1.
      rewrite length_app in Hx1. simpl in Hx1. lia. }
    destruct (jseqb (c :: x ++ backticks) backticks) eqn:H2; [|reflexivity].
    apply jseqb_true in H2. apply (f_equal length) in H2.
    cbn [length] in H2. rewrite length_app in H2. simpl in H2. lia. }
  rewrite Hnone. f_equal. apply IH.
  intros y ->. apply (Hx (c :: y)). reflexivity.
Qed.




(** The two tests of the loop, as the specification words them. *)
Lemma isMermaidSection_spec (content : jsstring) (s : SectionCache) :
  isMermaidSection content s = true <->
  sec_type s = lit "code" /\
  exists rest, blockContent content s = lit "```mermaid" ++ rest.
Proof.
  unfold isMermaidSection.
  rewrite andb_true_iff, jseqb_true, startsWith_app. reflexivity.
Qed.

(** The loop is a filter followed by a map. *)
Lemma extractLoop_filter (content : jsstring) (hs : list HeadingCache)
    (secs : list SectionCache) :
  extractLoop content hs secs =
  map (blockOf content hs) (List.filter (isMermaidSection content) secs).
Proof.
  induction secs as [|s secs IH]; [reflexivity|].
  cbn [extractLoop List.filter]. unfold isMermaidSection at 1.
  destruct (jseqb (sec_type s) (lit "code")); cbn [andb]; [|exact IH].
  destruct (startsWith fence (blockContent content s)); [|exact IH].
  cbn [map]. rewrite IH. reflexivity.
Qed.

Lemma extract_filter (content : jsstring) (cache : option CachedMetadata) :
  extractMermaidBlocks content cache =
  map (blockOf content (Spec.headingsOf cache))
    (List.filter (isMermaidSection content) (Spec.sectionsOf cache)).
Proof.
  destruct cache as [c|]; [|reflexivity].
  unfold extractMermaidBlocks, Spec.sectionsOf, Spec.headingsOf.
  destruct (sections c) as [secs|]; [|reflexivity].
  apply extractLoop_filter.
Qed.


End ExtractFacts.

Section HeadingFacts.

Import Extract.

(** The backward scan over the first [i] headings answers the last of them
    that lies above the line, or the sentinel. *)
Lemma scanHeadings_spec (hs : list HeadingCache) (sline i : nat) :
  i <= length hs ->
  (exists j h,
      j < i /\ hs !! j = Some h /\ line (hc_start h) < sline /\
      (forall k h', j < k -> k < i -> hs !! k = Some h' ->
                    ~ line (hc_start h') < sline) /\
      scanHeadings hs i sline = hc_heading h)
  \/ ((forall k h', k < i -> hs !! k = Some h' -> ~ line (hc_start h') < sline)
      /\ scanHeadings hs i sline = directContent).
Proof.
  induction i as [|i IH]; intros Hi.
  - right. split; [intros; lia | reflexivity].
  - cbn [scanHeadings].
    destruct (lookup_lt_is_Some_2 hs i) as [h Hh]; [lia|]. rewrite Hh.
    destruct (Nat.ltb_spec (line (hc_start h)) sline) as [Hlt|Hge].
    + left. exists i, h. repeat split; auto. intros; lia.
    + destruct IH as [(j & h0 & Hj & Hh0 & Hlt & Hlast & Heq) | [Hnone Heq]];
        [lia| |].
      * left. exists j, h0. repeat split; auto.
        intros k h' Hjk Hk Hk'.
        destruct (decide (k = i)) as [->|Hne].
        -- rewrite Hh in Hk'. injection Hk' as <-. lia.
        -- apply (Hlast k h'); auto. lia.
      * right. split; [|exact Heq].
        intros k h' Hk Hk'.
        destruct (decide (k = i)) as [->|Hne].
        -- rewrite Hh in Hk'. injection Hk' as <-. lia.
        -- apply (Hnone k h'); auto. lia.
Qed.

Lemma nearestHeading_label (hs : list HeadingCache) (sline : nat) :
  Spec.contextLabel hs sline (nearestHeading hs sline).
Proof.
  unfold nearestHeading, Spec.contextLabel.
  destruct (scanHeadings_spec hs sline (length hs) (le_n _))
    as [(j & h & Hj & Hh & Hlt & Hlast & Heq) | [Hnone Heq]].
  - left. exists j, h. repeat split; auto.
    intros k h' Hjk Hk. apply (Hlast k h'); auto.
    apply lookup_lt_Some in Hk. exact Hk.
  - right. split; [|exact Heq].
    intros k h' Hk. apply (Hnone k h'); auto.
    apply lookup_lt_Some in Hk. exact Hk.
Qed.

(** C3: the heading of every extracted block is the text of the last heading
    of the outline whose start line is strictly below the start line of the
    block's section, and the sentinel [direct content] when no heading
    precedes the section. *)
Theorem extract_heading_label (content : jsstring)
    (cache : option CachedMetadata) :
  Forall2
    (fun block s =>
       Spec.contextLabel (Spec.headingsOf cache) (line (sec_start s))
         (heading block))
    (extractMermaidBlocks content cache)
    (List.filter (isMermaidSection content) (Spec.sectionsOf cache)).
Proof.
  rewrite extract_filter.
  induction (List.filter (isMermaidSection content) (Spec.sectionsOf cache))
    as [|s l IH]; constructor; [|exact IH].
  apply nearestHeading_label.
Qed.

End HeadingFacts.

(** ** Numbers *)

Section NumberFacts.

Local Open Scope Z_scope.

Lemma toQ_nonneg_sign (s : bool) (m : positive) (e : Z) :
  (0 <= toQ (S754_finite s m e))%Q -> s = false.
Proof.
  destruct s; [|reflexivity]. intros Hq. exfalso.
  unfold toQ in Hq. destruct e as [|k|k].
  - unfold Qle, inject_Z in Hq. cbn [Qnum Qden] in Hq. lia.
  - unfold Qle, inject_Z in Hq. cbn [Qnum Qden] in Hq.
    assert (0 < 2 ^ Z.pos k) by (apply Z.pow_pos_nonneg; lia).
    assert (Z.neg m * 2 ^ Z.pos k < 0) by nia. lia.
  - unfold Qle in Hq. cbn [Qnum Qden] in Hq. lia.
Qed.

Lemma pow_pos_Z (k : positive) : Z.pos (2 ^ k) = 2 ^ Z.pos k.
Proof. apply Pos2Z.inj_pow. Qed.

(** The integer part of a non-negative number is the floor of its value. *)
Lemma truncate_floor (x : number) :
  (0 <= toQ x)%Q -> truncate x = Qfloor (toQ x).
Proof.
  destruct x as [s|s| |s m e]; try reflexivity.
  intros Hq. rewrite (toQ_nonneg_sign s m e Hq).
  unfold truncate, toQ. destruct e as [|k|k].
  - rewrite Qfloor_Z. reflexivity.
  - rewrite Qfloor_Z. reflexivity.
  - unfold Qfloor. rewrite pow_pos_Z, Z.shiftr_div_pow2 by lia. reflexivity.
Qed.

(** A canvas dimension is the floor of the value assigned, for a value in
    the range of the attribute. *)
Lemma canvasDimension_floor (dflt : Z) (x : number) :
  (0 <= toQ x)%Q -> (toQ x < inject_Z (2 ^ 31))%Q ->
  canvasDimension dflt x = Qfloor (toQ x).
Proof.
  intros H0 H1. unfold canvasDimension, toUnsignedLong.
  rewrite (truncate_floor x H0).
  assert (Hlo : 0 <= Qfloor (toQ x)).
  { rewrite <- (Qfloor_Z 0). apply Qfloor_resp_le. exact H0. }
  assert (Hhi : Qfloor (toQ x) < 2 ^ 31).
  { pose proof (Qfloor_resp_le _ _ (Qlt_le_weak _ _ H1)) as H2.
    rewrite Qfloor_Z in H2.
    destruct (Z.eq_dec (Qfloor (toQ x)) (2 ^ 31)) as [Heq|Hne]; [|lia].
    exfalso. pose proof (Qfloor_le (toQ x)) as Hle. rewrite Heq in Hle.
    apply (Qlt_irrefl (toQ x)). eapply Qlt_le_trans; eauto. }
  rewrite Z.mod_small by lia.
  destruct (Z.leb_spec (Qfloor (toQ x)) 2147483647); [reflexivity | lia].
Qed.

Lemma Qfloor_unique (y : Q) (n : Z) :
  (inject_Z n <= y)%Q -> (y < inject_Z (n + 1))%Q -> Qfloor y = n.
Proof.
  intros Hlo Hhi.
  pose proof (Qfloor_le y) as Hf. pose proof (Qlt_floor y) as Hc.
  assert (n < Qfloor y + 1).
  { rewrite Zlt_Qlt. eapply Qle_lt_trans; eauto. }
  assert (Qfloor y < n + 1).
  { rewrite Zlt_Qlt. eapply Qle_lt_trans; eauto. }
  lia.
Qed.

(** Rounding adds one to the floor exactly when the fraction is one half or
    more. *)
Lemma round_exact (x : number) :
  round x = Qfloor (toQ x) + (if fractionAtLeastHalf x then 1 else 0).
Proof.
  unfold round, fractionAtLeastHalf.
  pose proof (Qfloor_le (toQ x)) as Hf. pose proof (Qlt_floor (toQ x)) as Hc.
  rewrite inject_Z_plus in Hc. change (inject_Z 1) with 1%Q in Hc.
  destruct (Qle_bool (1 # 2) (toQ x - inject_Z (Qfloor (toQ x)))) eqn:Hb.
  - apply Qle_bool_iff in Hb. apply Qfloor_unique.
    + rewrite inject_Z_plus. change (inject_Z 1) with 1%Q. lra.
    + rewrite !inject_Z_plus. change (inject_Z 1) with 1%Q. lra.
  - assert (Hlt : (toQ x - inject_Z (Qfloor (toQ x)) < 1 # 2)%Q).
    { apply Qnot_le_lt. intros Hle. apply Qle_bool_iff in Hle. congruence. }
    rewrite Z.add_0_r. apply Qfloor_unique.
    + lra.
    + rewrite inject_Z_plus. change (inject_Z 1) with 1%Q. lra.
Qed.

(** Rounding gives the floor or the next integer. *)
Lemma round_floor (x : number) :
  Qfloor (toQ x) <= round x <= Qfloor (toQ x) + 1.
Proof.
  unfold round. split.
  - apply Qfloor_resp_le. rewrite <- (Qplus_0_r (toQ x)) at 1.
    apply Qplus_le_r. discriminate.
  - pose proof (Qfloor_le (toQ x + (1 # 2))) as Hr.
    pose proof (Qlt_floor (toQ x)) as Hx.
    assert (Hlt : (inject_Z (Qfloor (toQ x + (1 # 2)))
                   < inject_Z (Qfloor (toQ x) + 1) + (1 # 2))%Q).
    { eapply Qle_lt_trans; [exact Hr|]. apply Qplus_lt_l. exact Hx. }
    revert Hlt. generalize (Qfloor (toQ x + (1 # 2))), (Qfloor (toQ x)).
    intros a b. unfold Qlt, Qplus, inject_Z. cbn [Qnum Qden].
    change (Z.pos (1 * 2)) with 2. lia.
Qed.

End NumberFacts.

(** ** The render orchestrator *)

Section RenderFacts.

Context `{Host} (E : env).

Lemma pollLoop_polled (r : rendering) (left i : nat) (w : world) :
  exists w',
    pollLoop E r left i w = (Ok (fst (polled E r left i)), w') /\
    body w' = body w /\ nextId w' = nextId w /\ renders w' = renders w /\
    files w' = files w /\
    log w' = log w ++ repeat (Sleep 50) (snd (polled E r left i)).
Proof.
  revert i w. induction left as [|left IH]; intros i w.
  - exists w. cbn. rewrite app_nil_r. repeat split; reflexivity.
  - cbn [pollLoop polled]. destruct (inspect E (frames r i)) as [svg|].
    + exists w. cbn. rewrite app_nil_r. repeat split; reflexivity.
    + unfold bind, emit at 1.
      set (w1 := {| body := body w; nextId := nextId w; renders := renders w;
                    files := files w; log := log w ++ [Sleep 50] |}).
      destruct (IH (S i) w1) as (w' & Hrun & Hb & Hn & Hr & Hf & Hl).
      exists w'. rewrite Hrun.
      destruct (polled E r left (S i)) as [found sleeps]. cbn in *.
      repeat split; auto. rewrite Hl, <- app_assoc. reflexivity.
Qed.

Lemma polled_bound (r : rendering) (left i : nat) :
  snd (polled E r left i) <= left.
Proof.
  revert i. induction left as [|left IH]; intros i; cbn; [lia|].
  destruct (inspect E (frames r i)); cbn; [lia|].
  specialize (IH (S i)). destruct (polled E r left (S i)). cbn in *. lia.
Qed.

Lemma polled_none (r : rendering) (left i : nat) :
  (forall j, j < left -> inspect E (frames r (i + j)) = None) ->
  polled E r left i = (None, left).
Proof.
  revert i. induction left as [|left IH]; intros i Hnone; [reflexivity|].
  cbn [polled]. rewrite <- (Nat.add_0_r i) at 1. rewrite Hnone by lia.
  rewrite IH; [reflexivity|].
  intros j Hj. rewrite Nat.add_succ_l, <- Nat.add_succ_r. apply Hnone. lia.
Qed.

(** A run of [renderMermaidToSvg] when the render call resolves. *)
Lemma render_resolved (code : jsstring) (w : world) :
  let r := engine E (renders w) (renderMarkup E code) in
  rejects r = None ->
  exists w',
    renderMermaidToSvg E code w
    = (Ok (prepend (fontStyle E) <$> fst (polled E r maxRetries 0)), w') /\
    body w' = filter (fun x => x ≠ nextId w) (body w ++ [nextId w]) /\
    nextId w' = S (nextId w) /\ renders w' = S (renders w) /\
    files w' = files w /\
    log w' = log w ++ Render (renderMarkup E code)
                   :: repeat (Sleep 50) (snd (polled E r maxRetries 0)).
Proof.
  intros r Hres. unfold renderMermaidToSvg, bind, createDiv, markdownRender.
  cbn [renders]. fold r. rewrite Hres.
  match goal with
  | |- context [pollLoop E r maxRetries 0 ?w1] =>
      destruct (pollLoop_polled r maxRetries 0 w1)
        as (w2 & Hrun & Hb & Hn & Hr & Hf & Hl)
  end.
  rewrite Hrun. cbn in Hb, Hn, Hr, Hf, Hl.
  unfold removeChild. rewrite Hb.
  rewrite bool_decide_eq_true_2 by set_solver.
  eexists. split; [reflexivity|]. cbn.
  rewrite Hn, Hr, Hf, Hl, <- app_assoc. auto.
Qed.

(** A run of [renderMermaidToSvg] when the render call rejects. *)
Lemma render_rejected (code : jsstring) (w : world) (e : error) :
  rejects (engine E (renders w) (renderMarkup E code)) = Some e ->
  exists w',
    renderMermaidToSvg E code w = (Throw e, w') /\
    body w' = body w ++ [nextId w] /\
    nextId w' = S (nextId w) /\ renders w' = S (renders w) /\
    files w' = files w /\
    log w' = log w ++ [Render (renderMarkup E code)].
Proof.
  intros Hrej. unfold renderMermaidToSvg, bind, createDiv, markdownRender.
  cbn [renders]. rewrite Hrej. eexists. split; [reflexivity|]. cbn. auto.
Qed.

End RenderFacts.

(** ** Candidates of the poll *)

Section DomFacts.

Lemma node_ind' (P : node -> Prop) :
  (forall s, P (Text s)) ->
  (forall tag cls attrs vb kids,
      Forall P kids -> P (El tag cls attrs vb kids)) ->
  forall n, P n.
Proof.
  intros HT HE. fix IH 1. intros [s|tag cls attrs vb kids]; [apply HT|].
  apply HE. revert kids. fix IHk 1. intros [|k kids]; constructor.
  - apply IH.
  - apply IHk.
Qed.

Lemma queryNode_El (up : list node) tag cls attrs vb kids :
  queryNode up (El tag cls attrs vb kids) =
  if matchesSvg (El tag cls attrs vb kids)
  then Some (El tag cls attrs vb kids, up)
  else queryNodes (El tag cls attrs vb kids :: up) kids.
Proof.
  cbn [queryNode]. destruct (matchesSvg _); [reflexivity|].
  generalize (El tag cls attrs vb kids :: up). intros up'.
  induction kids as [|k kids IH]; [reflexivity|].
  cbn [queryNodes]. rewrite <- IH. reflexivity.
Qed.





End DomFacts.

(** ** Polling and the off-screen container *)

Section ContainerFacts.

Context `{Host} (E : env).


(** Whatever the engine draws, a render call that resolves is followed by
    at most 200 sleeps. *)
Lemma render_sleeps_bounded (code : jsstring) (w : world) :
  rejects (engine E (renders w) (renderMarkup E code)) = None ->
  exists w' found sleeps,
    renderMermaidToSvg E code w = (Ok found, w') /\
    log w' = log w ++ Render (renderMarkup E code)
                   :: repeat (Sleep 50) sleeps /\
    sleeps <= maxRetries.
Proof.
  intros Hres.
  destruct (render_resolved E code w Hres)
    as (w' & Hrun & _ & _ & _ & _ & Hlog).
  eexists _, _, _. split; [exact Hrun|]. split; [exact Hlog|].
  apply polled_bound.
Qed.


(** C1, as the code has it: when the render call resolves, on success and
    on timeout alike, the container is no child of the body once
    [renderMermaidToSvg] has returned, and the other children are kept;
    when the render call rejects, the rejection leaves the function with
    the container still attached. *)
Theorem container_released (code : jsstring) (w : world) :
  let result := renderMermaidToSvg E code w in
  match rejects (engine E (renders w) (renderMarkup E code)) with
  | None =>
      (exists found, fst result = Ok found) /\
      ~ In (nextId w) (body (snd result)) /\
      body (snd result) = filter (fun x => x ≠ nextId w) (body w)
  | Some e =>
      fst result = Throw e /\
      body (snd result) = body w ++ [nextId w]
  end.
Proof.
  cbv zeta.
  destruct (rejects (engine E (renders w) (renderMarkup E code)))
    as [e|] eqn:Hr.
  - destruct (render_rejected E code w e Hr) as (w' & -> & Hb & _).
    split; [reflexivity | exact Hb].
  - destruct (render_resolved E code w Hr) as (w' & -> & Hb & _).
    cbn [fst snd]. split; [eauto|]. rewrite Hb, filter_app.
    rewrite (filter_cons_False _ (nextId w) []) by (intros Hne; apply Hne; reflexivity).
    rewrite filter_nil, app_nil_r. split; [|reflexivity].
    rewrite <- list_elem_of_In. intros Hin.
    apply list_elem_of_filter in Hin as [Hne _]. apply Hne. reflexivity.
Qed.

End ContainerFacts.


(** C1 fails when the render call rejects: the container, element 0, is
    still a child of the body after the call. *)
Lemma container_leaked :
  fst (renderMermaidToSvg Sample.crashing_env (lit "graph TD") Sample.start)
  = Throw {| message := Some (lit "Parse error") |}
  /\ body (snd (renderMermaidToSvg Sample.crashing_env (lit "graph TD")
                  Sample.start)) = [0]
  /\ body Sample.start = [].
Proof. vm_compute. repeat split. Qed.

(** ** The encoder and the writer *)

Section MonadFacts.

Context {A B : Type} (Q : event -> Prop).

Lemma steady_ret (R : A -> Prop) (a : A) : R a -> steady Q R (ret a).
Proof. intros Ha w. exists []. cbn. rewrite app_nil_r. repeat split; auto. Qed.

Lemma steady_throw (R : A -> Prop) (e : error) : steady Q R (throw e).
Proof. intros w. exists []. cbn. rewrite app_nil_r. repeat split; auto. Qed.

Lemma steady_emit (R : unit -> Prop) (ev : event) :
  Q ev -> R tt -> steady Q R (emit ev).
Proof. intros Hq Hr w. exists [ev]. cbn. repeat split; auto. Qed.

Lemma steady_bind (R : A -> Prop) (R' : B -> Prop) (m : M A) (k : A -> M B) :
  steady Q R m -> (forall a, R a -> steady Q R' (k a)) ->
  steady Q R' (bind m k).
Proof.
  intros Hm Hk w. unfold bind.
  destruct (Hm w) as (evs & Hb & Hn & Hr & Hl & Hq & Ha).
  destruct (m w) as [[a|e] w1]; cbn [fst snd] in *.
  - destruct (Hk a Ha w1) as (evs' & Hb' & Hn' & Hr' & Hl' & Hq' & Ha').
    exists (evs ++ evs'). rewrite Hb', Hn', Hr', Hl', Hl, app_assoc.
    repeat split; auto. apply Forall_app; auto.
  - exists evs. repeat split; auto.
Qed.

Lemma steady_tryCatch (R : A -> Prop) (m : M A) (h : error -> M A) :
  steady Q R m -> (forall e, steady Q R (h e)) -> steady Q R (tryCatch m h).
Proof.
  intros Hm Hh w. unfold tryCatch.
  destruct (Hm w) as (evs & Hb & Hn & Hr & Hl & Hq & Ha).
  destruct (m w) as [[a|e] w1]; cbn [fst snd] in *.
  - exists evs. repeat split; auto.
  - destruct (Hh e w1) as (evs' & Hb' & Hn' & Hr' & Hl' & Hq' & Ha').
    exists (evs ++ evs'). rewrite Hb', Hn', Hr', Hl', Hl, app_assoc.
    repeat split; auto. apply Forall_app; auto.
Qed.

Lemma steady_mono (Q' : event -> Prop) (R : A -> Prop) (m : M A) :
  (forall ev, Q ev -> Q' ev) -> steady Q R m -> steady Q' R m.
Proof.
  intros Himp Hm w. destruct (Hm w) as (evs & Hb & Hn & Hr & Hl & Hq & Ha).
  exists evs. repeat split; auto. eapply Forall_impl; eauto.
Qed.

End MonadFacts.

Section SaveFacts.

Context `{Host} (E : env) (cfg : settings).

Lemma steady_existsSync Q (path : jsstring) :
  steady Q anything (existsSync path).
Proof. intros w. exists []. cbn. rewrite app_nil_r. repeat split; auto. Qed.

Lemma steady_writeFileSync (Q : event -> Prop) (path : jsstring) (b : bytes) :
  Q (WriteFile path b) -> steady Q anything (writeFileSync E path b).
Proof.
  intros Hq w. unfold writeFileSync. destruct (writeError E path).
  - exists []. cbn. rewrite app_nil_r. repeat split; auto.
  - exists [WriteFile path b]. cbn. repeat split; auto.
Qed.

Lemma steady_makeBuffer (t : option jsstring) (svg : node) (data : jsstring) :
  steady (savedEvent t) anything (makeBuffer E cfg svg data).
Proof.
  unfold makeBuffer. destruct (outputFormat cfg); [|apply steady_ret; exact I].
  destruct (canvasSize cfg svg) as [cw ch].
  eapply steady_bind; [apply steady_emit with (R := anything); exact I|].
  intros _ _. destruct (context2d E); [|apply steady_ret; exact I].
  destruct (rasterize E data cw ch);
    [apply steady_throw | apply steady_ret; exact I].
Qed.

(** With a directory, the path chosen is the file name under it; without
    one, the save dialog is shown. *)
Lemma steady_choosePath (name : jsstring) (target : option jsstring)
    (skipOpen : bool) :
  steady (savedEvent (targetPath target name))
    (fun chosen =>
       forall p, chosen = Some (Some p) ->
                 forall path, targetPath target name = Some path -> p = path)
    (choosePath E cfg name target skipOpen).
Proof.
  unfold choosePath, targetPath. destruct (targetGiven target) as [dir|].
  - eapply steady_bind; [apply steady_existsSync|]. intros present _.
    destruct (present && negb (overwrite cfg)).
    + eapply steady_bind with (R := anything).
      * destruct (negb skipOpen);
          [apply steady_emit; exact I | apply steady_ret; exact I].
      * intros _ _. apply steady_ret. discriminate.
    + apply steady_ret. intros p Hp path Hpath.
      injection Hp as <-. injection Hpath as <-. reflexivity.
  - destruct (negb (dialogAvailable E)).
    + eapply steady_bind with (R := anything);
        [apply steady_emit; exact I|].
      intros _ _. apply steady_ret. discriminate.
    + eapply steady_bind with (R := anything);
        [apply steady_emit; [reflexivity | exact I]|].
      intros _ _.
      destruct (negb (sd_canceled (showSaveDialog E name))
                && given (sd_filePath (showSaveDialog E name)));
        apply steady_ret; discriminate.
Qed.

(** [saveSvgAsImage] leaves the document and the render counter alone; it
    prompts only without a directory, and with one it writes only to the
    file name under it. *)
Lemma save_steady (svg : node) (base : jsstring) (index : nat)
    (heading : jsstring) (target : option jsstring) (skipOpen : bool) :
  steady
    (savedEvent
       (targetPath target
          (defaultFileName base heading index (outputFormat cfg))))
    anything
    (saveSvgAsImage E cfg svg base index heading target skipOpen).
Proof.
  unfold saveSvgAsImage.
  apply steady_tryCatch; [|intros e; apply steady_emit; exact I].
  eapply steady_bind; [apply steady_makeBuffer|].
  intros [buffer|] _; [|apply steady_emit; exact I].
  eapply steady_bind; [apply steady_choosePath|].
  intros [[finalPath|]|] Hp; try (apply steady_ret; exact I).
  destruct (truthy finalPath); [|apply steady_ret; exact I].
  eapply steady_bind.
  - apply steady_writeFileSync. cbn. apply (Hp finalPath eq_refl).
  - intros _ _. destruct (autoOpen cfg && negb skipOpen);
      [apply steady_emit; exact I | apply steady_ret; exact I].
Qed.

(** [saveSvgAsImage] returns normally, whatever happens inside. *)
Lemma save_returns (svg : node) (base : jsstring) (index : nat)
    (heading : jsstring) (target : option jsstring) (skipOpen : bool)
    (w : world) :
  fst (saveSvgAsImage E cfg svg base index heading target skipOpen w) = Ok tt.
Proof.
  unfold saveSvgAsImage, tryCatch.
  match goal with |- context [match ?m w with _ => _ end] =>
    destruct (m w) as [[[]|e] w1] end; reflexivity.
Qed.

(** What [makeBuffer] does to the world: it records the canvas. *)
Lemma makeBuffer_world (svg : node) (data : jsstring) (w : world) :
  body (snd (makeBuffer E cfg svg data w)) = body w /\
  nextId (snd (makeBuffer E cfg svg data w)) = nextId w /\
  renders (snd (makeBuffer E cfg svg data w)) = renders w /\
  files (snd (makeBuffer E cfg svg data w)) = files w /\
  log (snd (makeBuffer E cfg svg data w)) = log w ++ canvasEvents cfg svg.
Proof.
  unfold makeBuffer, canvasEvents. destruct (outputFormat cfg).
  - destruct (canvasSize cfg svg) as [cw ch]. unfold bind, emit.
    destruct (context2d E); [|cbn; auto].
    destruct (rasterize E data cw ch); cbn; auto.
  - cbn. rewrite app_nil_r. auto.
Qed.

(** Whatever the target, [saveSvgAsImage] first records the canvas. *)
Lemma save_canvas_first (svg : node) (base : jsstring) (index : nat)
    (heading : jsstring) (target : option jsstring) (skipOpen : bool)
    (w : world) :
  exists rest,
    log (snd (saveSvgAsImage E cfg svg base index heading target skipOpen w))
    = log w ++ canvasEvents cfg svg ++ rest.
Proof.
  unfold saveSvgAsImage, tryCatch, bind.
  destruct (makeBuffer_world svg (scaledMarkup cfg svg) w)
    as (_ & _ & _ & _ & Hl).
  destruct (makeBuffer E cfg svg (scaledMarkup cfg svg) w) as [[buffer|e] w1];
    cbn [snd] in Hl.
  - set (k := match buffer with Some _ => _ | None => _ end).
    assert (Hk : steady (fun _ => True) anything k).
    { unfold k. destruct buffer as [b|]; [|apply steady_emit; exact I].
      eapply steady_bind.
      - eapply steady_mono; [|apply steady_choosePath]. auto.
      - intros [[finalPath|]|] _; try (apply steady_ret; exact I).
        destruct (truthy finalPath); [|apply steady_ret; exact I].
        eapply steady_bind; [apply steady_writeFileSync; exact I|].
        intros _ _. destruct (autoOpen cfg && negb skipOpen);
          [apply steady_emit; exact I | apply steady_ret; exact I]. }
    destruct (Hk w1) as (evs & _ & _ & _ & Hl1 & _).
    destruct (k w1) as [[[]|e] w2]; cbn [snd] in *.
    + exists evs. rewrite Hl1, Hl, app_assoc. reflexivity.
    + exists (evs ++ [Notice (lit "Save failed: " ++ messageText e)]).
      cbn. rewrite Hl1, Hl, !app_assoc. reflexivity.
  - exists [Notice (lit "Save failed: " ++ messageText e)].
    cbn. rewrite Hl, app_assoc. reflexivity.
Qed.

Lemma makeBuffer_encoded (svg : node) (w : world) :
  fst (makeBuffer E cfg svg (scaledMarkup cfg svg) w) = encoded E cfg svg.
Proof.
  unfold makeBuffer, encoded. destruct (outputFormat cfg); [|reflexivity].
  destruct (canvasSize cfg svg) as [cw ch]. unfold bind, emit. cbn [fst snd].
  destruct (context2d E); [|reflexivity].
  destruct (rasterize E (scaledMarkup cfg svg) cw ch); reflexivity.
Qed.

(** What a call of [saveSvgAsImage] with a directory leaves in the record:
    the notice of the encode failure, or the write. *)
Lemma save_outcome (svg : node) (base : jsstring) (index : nat)
    (heading dir : jsstring) (skipOpen : bool) (w : world) :
  let path :=
    pathJoin dir (defaultFileName base heading index (outputFormat cfg)) in
  exists evs,
    log (snd (saveSvgAsImage E cfg svg base index heading (Some dir)
                skipOpen w)) = log w ++ evs /\
    match encoded E cfg svg with
    | Throw e => In (Notice (lit "Save failed: " ++ messageText e)) evs
    | Ok None => In (Notice (lit "Failed to create image buffer.")) evs
    | Ok (Some buffer) =>
        overwrite cfg = true -> truthy dir = true ->
        writeError E path = None ->
        In (WriteFile path buffer) evs
    end.
Proof.
  intros path.
  destruct (save_steady svg base index heading (Some dir) skipOpen w)
    as (evs0 & _ & _ & _ & Hl0 & _).
  pose proof (makeBuffer_encoded svg w) as Henc.
  destruct (makeBuffer_world svg (scaledMarkup cfg svg) w)
    as (_ & _ & _ & _ & Hl).
  destruct (encoded E cfg svg) as [[buffer|]|e].
  - destruct (overwrite cfg) eqn:Hover;
      [|exists evs0; split; [exact Hl0 | discriminate]].
    destruct (truthy dir) eqn:Hdir;
      [|exists evs0; split; [exact Hl0 | discriminate]].
    destruct (writeError E path) eqn:Hwrite;
      [exists evs0; split; [exact Hl0 | discriminate]|].
    clear evs0 Hl0.
    unfold saveSvgAsImage, tryCatch, bind. fold path.
    destruct (makeBuffer E cfg svg (scaledMarkup cfg svg) w) as [o w1].
    cbn [fst snd] in Henc, Hl. subst o.
    unfold choosePath, targetGiven, bind, existsSync, writeFileSync.
    rewrite Hdir, Hover. fold path.
    cbn [negb]. rewrite andb_false_r. cbn [ret].
    unfold path at 1. rewrite pathJoin_truthy. fold path. rewrite Hwrite.
    destruct (autoOpen cfg && negb skipOpen); unfold emit, ret;
      cbn [snd log]; eexists;
      (split; [rewrite Hl, <- ?app_assoc; reflexivity|]);
      intros _ _ _; apply in_or_app; right; left; reflexivity.
  - clear evs0 Hl0. unfold saveSvgAsImage, tryCatch, bind.
    destruct (makeBuffer E cfg svg (scaledMarkup cfg svg) w) as [o w1].
    cbn [fst snd] in Henc, Hl. subst o.
    unfold notice, emit. cbn [snd log]. eexists.
    split; [rewrite Hl, <- app_assoc; reflexivity|].
    apply in_or_app. right. left. reflexivity.
  - clear evs0 Hl0. unfold saveSvgAsImage, tryCatch, bind.
    destruct (makeBuffer E cfg svg (scaledMarkup cfg svg) w) as [o w1].
    cbn [fst snd] in Henc, Hl. subst o.
    unfold notice, emit. cbn [snd log]. eexists.
    split; [rewrite Hl, <- app_assoc; reflexivity|].
    apply in_or_app. right. left. reflexivity.
Qed.

End SaveFacts.

Section SaveTheorems.

Context `{Host} (E : env) (cfg : settings).

(** C7, as the code has it: for a PNG export the canvas is allocated with
    the floor of [width * scale] and of [height * scale], the products being
    in the range of the attribute; the fraction is dropped, not rounded, so
    each dimension is the rounded product when the fraction is below one
    half, and one less when it is one half or more. *)
Theorem canvas_is_floor (svg : node) (base : jsstring) (index : nat)
    (heading : jsstring) (target : option jsstring) (skipOpen : bool)
    (w : world) :
  let pw := mul (fst (dimensions svg)) (imageScale cfg) in
  let ph := mul (snd (dimensions svg)) (imageScale cfg) in
  outputFormat cfg = PNG ->
  (0 <= toQ pw)%Q -> (toQ pw < inject_Z (2 ^ 31))%Q ->
  (0 <= toQ ph)%Q -> (toQ ph < inject_Z (2 ^ 31))%Q ->
  (exists rest,
      log (snd (saveSvgAsImage E cfg svg base index heading target skipOpen w))
      = log w ++ CreateCanvas (Qfloor (toQ pw)) (Qfloor (toQ ph)) :: rest)
  /\ round pw
     = (Qfloor (toQ pw) + (if fractionAtLeastHalf pw then 1 else 0))%Z
  /\ round ph
     = (Qfloor (toQ ph) + (if fractionAtLeastHalf ph then 1 else 0))%Z.
Proof.
  intros pw ph Hpng Hw0 Hw1 Hh0 Hh1.
  split; [|split; apply round_exact].
  destruct (save_canvas_first E cfg svg base index heading target skipOpen w)
    as [rest Hrest].
  exists rest. rewrite Hrest. unfold canvasEvents, canvasSize.
  rewrite Hpng. subst pw ph. destruct (dimensions svg) as [width height].
  cbn [fst snd] in *.
  rewrite (canvasDimension_floor 300 _ Hw0 Hw1).
  rewrite (canvasDimension_floor 150 _ Hh0 Hh1). reflexivity.
Qed.

(** The existing-file policy: the path is there and [overwrite] is off. *)
Lemma choosePath_present (name dir : jsstring) (skipOpen : bool) (w : world) :
  truthy dir = true ->
  overwrite cfg = false ->
  is_Some (files w !! pathJoin dir name) ->
  exists w',
    choosePath E cfg name (Some dir) skipOpen w = (Ok None, w') /\
    files w' = files w /\
    log w' = log w ++ (if skipOpen then []
                       else [Notice (lit "File already exists, skipping: "
                                     ++ name)]).
Proof.
  intros Hdir Hover Hex.
  unfold choosePath, targetGiven, bind, existsSync. rewrite Hdir.
  rewrite (bool_decide_eq_true_2 _ Hex), Hover. cbn [negb andb].
  destruct skipOpen; cbn [negb]; unfold notice, emit, ret.
  - exists w. rewrite app_nil_r. auto.
  - eexists. split; [reflexivity|]. cbn. auto.
Qed.

Lemma canvasEvents_no_write (svg : node) (p : jsstring) (d : bytes) :
  ~ In (WriteFile p d) (canvasEvents cfg svg).
Proof.
  unfold canvasEvents. destruct (outputFormat cfg); [|intros []].
  intros [Hin|[]]. discriminate.
Qed.

(** C6, as the code has it: with [overwrite] off and the target path
    present, [saveSvgAsImage] writes nothing and the files are as they were;
    when the image buffer was made, a single-item export reports the skip
    with the notice [File already exists, skipping: <name>], and a batch
    export (where [skipOpen] is set) reports nothing. *)
Theorem existing_file_skipped (svg : node) (base : jsstring) (index : nat)
    (heading dir : jsstring) (skipOpen : bool) (w : world) :
  let name := defaultFileName base heading index (outputFormat cfg) in
  let result :=
    saveSvgAsImage E cfg svg base index heading (Some dir) skipOpen w in
  truthy dir = true ->
  overwrite cfg = false ->
  is_Some (files w !! pathJoin dir name) ->
  files (snd result) = files w
  /\ exists evs,
       log (snd result) = log w ++ evs
       /\ (forall p d, ~ In (WriteFile p d) evs)
       /\ (forall buffer w1,
              makeBuffer E cfg svg (scaledMarkup cfg svg) w
              = (Ok (Some buffer), w1) ->
              evs = canvasEvents cfg svg
                    ++ (if skipOpen then []
                        else [Notice (lit "File already exists, skipping: "
                                      ++ name)])).
Proof.
  intros name result Hdir Hover Hex. subst result.
  unfold saveSvgAsImage, tryCatch, bind. fold name.
  destruct (makeBuffer_world E cfg svg (scaledMarkup cfg svg) w)
    as (_ & _ & _ & Hf & Hl).
  destruct (makeBuffer E cfg svg (scaledMarkup cfg svg) w)
    as [[[buffer|]|e] w1]; cbn [snd] in Hf, Hl.
  - rewrite <- Hf in Hex.
    destruct (choosePath_present name dir skipOpen w1 Hdir Hover Hex)
      as (w2 & -> & Hf2 & Hl2).
    cbn [ret snd]. split; [congruence|].
    eexists. split; [rewrite Hl2, Hl, <- app_assoc; reflexivity|]. split.
    + intros p d Hin. apply in_app_or in Hin as [Hin|Hin].
      * exact (canvasEvents_no_write svg p d Hin).
      * destruct skipOpen; [destruct Hin|destruct Hin as [Hin|[]]].
        discriminate.
    + intros b w3 _. reflexivity.
  - unfold notice, emit. cbn [snd fst files log]. split; [exact Hf|].
    eexists. split; [rewrite Hl, <- app_assoc; reflexivity|]. split.
    + intros p d Hin. apply in_app_or in Hin as [Hin|[Hin|[]]];
        [|discriminate].
      exact (canvasEvents_no_write svg p d Hin).
    + intros b w2 Hb. discriminate.
  - unfold notice, emit. cbn [snd fst files log]. split; [exact Hf|].
    eexists. split; [rewrite Hl, <- app_assoc; reflexivity|]. split.
    + intros p d Hin. apply in_app_or in Hin as [Hin|[Hin|[]]];
        [|discriminate].
      exact (canvasEvents_no_write svg p d Hin).
    + intros b w2 Hb. discriminate.
Qed.

End SaveTheorems.

Section SaveExamples.

#[local] Existing Instance Sample.host.

(** A PNG export at scale 2 of a drawing of 100.75 by 50.75: the products
    are 201.5 and 101.5, the canvas is 201 by 101. *)
Lemma canvas_is_floor_witness :
  (exists rest,
      log (snd (saveSvgAsImage Sample.drawing_env (Sample.config 2 PNG true)
                  Sample.drawing (lit "Notes") 0 (lit "Sys/Arch")
                  (Some (lit "/out")) false Sample.start))
      = log Sample.start ++ CreateCanvas 201 101 :: rest)
  /\ (202 = 201 + 1)%Z /\ (102 = 101 + 1)%Z.
Proof.
  apply (canvas_is_floor Sample.drawing_env (Sample.config 2 PNG true)
           Sample.drawing (lit "Notes") 0 (lit "Sys/Arch")
           (Some (lit "/out")) false Sample.start).
  - reflexivity.
  - vm_compute. discriminate.
  - vm_compute. reflexivity.
  - vm_compute. discriminate.
  - vm_compute. reflexivity.
Defined.

(** C7 fails for a width or height with a fraction of one half or more: at
    each of the scales 1, 2 and 10 the canvas of a 100.75 by 50.75 drawing is
    one less than the rounded product in both dimensions. *)
Lemma canvas_not_rounded :
  let width := fst (dimensions Sample.drawing) in
  let height := snd (dimensions Sample.drawing) in
  canvasSize (Sample.config 1 PNG true) Sample.drawing = (100, 50)%Z
  /\ (round (mul width (ofZ 1)), round (mul height (ofZ 1))) = (101, 51)%Z
  /\ canvasSize (Sample.config 2 PNG true) Sample.drawing = (201, 101)%Z
  /\ (round (mul width (ofZ 2)), round (mul height (ofZ 2))) = (202, 102)%Z
  /\ canvasSize (Sample.config 10 PNG true) Sample.drawing = (1007, 507)%Z
  /\ (round (mul width (ofZ 10)), round (mul height (ofZ 10))) = (1008, 508)%Z.
Proof. vm_compute. repeat split. Qed.

(** A single-item export onto an existing file, [overwrite] being off. *)
Lemma existing_file_skipped_witness :
  let name := lit "Notes-Sys-Arch-1.png" in
  let result :=
    saveSvgAsImage Sample.drawing_env (Sample.config 1 PNG false)
      Sample.drawing (lit "Notes") 0 (lit "Sys/Arch") (Some (lit "/out"))
      false Sample.taken in
  files (snd result) = files Sample.taken
  /\ exists evs,
       log (snd result) = log Sample.taken ++ evs
       /\ (forall p d, ~ In (WriteFile p d) evs)
       /\ (forall buffer w1,
              makeBuffer Sample.drawing_env (Sample.config 1 PNG false)
                Sample.drawing
                (scaledMarkup (Sample.config 1 PNG false) Sample.drawing)
                Sample.taken
              = (Ok (Some buffer), w1) ->
              evs = canvasEvents (Sample.config 1 PNG false) Sample.drawing
                    ++ [Notice (lit "File already exists, skipping: "
                                ++ name)]).
Proof.
  apply (existing_file_skipped Sample.drawing_env (Sample.config 1 PNG false)
           Sample.drawing (lit "Notes") 0 (lit "Sys/Arch") (lit "/out")
           false Sample.taken).
  - reflexivity.
  - reflexivity.
  - vm_compute. eexists. reflexivity.
Defined.

(** C6 fails for a batch export: with [skipOpen] set, the write onto the
    existing file is skipped and the files are as they were, but no notice
    is shown; the record holds the canvas allocation only. *)
Lemma existing_file_silent_in_batch :
  let result :=
    saveSvgAsImage Sample.drawing_env (Sample.config 1 PNG false)
      Sample.drawing (lit "Notes") 0 (lit "Sys/Arch") (Some (lit "/out"))
      true Sample.taken in
  is_Some (files Sample.taken !! lit "/out/Notes-Sys-Arch-1.png")
  /\ pathJoin (lit "/out")
       (defaultFileName (lit "Notes") (lit "Sys/Arch") 0 PNG)
     = lit "/out/Notes-Sys-Arch-1.png"
  /\ fst result = Ok tt
  /\ log (snd result) = [CreateCanvas 100 50]
  /\ files (snd result) = files Sample.taken.
Proof.
  vm_compute. repeat split. eexists. reflexivity.
Qed.

End SaveExamples.

(** ** The export handler *)

Section ExportFacts.

Context `{Host} (E : env) (cfg : settings).
Context (blocks : list Extract.MermaidBlock) (base dir : jsstring).

Lemma renderCalls_app (a b : list event) :
  renderCalls (a ++ b) = renderCalls a + renderCalls b.
Proof. unfold renderCalls. rewrite List.filter_app, length_app. reflexivity. Qed.

Lemma renderCalls_sleeps (n : nat) : renderCalls (repeat (Sleep 50) n) = 0.
Proof. induction n as [|n IH]; [reflexivity | exact IH]. Qed.

Lemma renderCalls_saved (t : option jsstring) (evs : list event) :
  Forall (savedEvent t) evs -> renderCalls evs = 0.
Proof.
  induction 1 as [|ev evs Hev _ IH]; [reflexivity|].
  destruct ev; try destruct Hev; exact IH.
Qed.

Lemma savedEvent_item (index : nat) (block : Extract.MermaidBlock)
    (ev : event) :
  blocks !! index = Some block ->
  savedEvent
    (targetPath (Some dir)
       (defaultFileName base (Extract.heading block) index (outputFormat cfg)))
    ev ->
  itemEvent cfg blocks base dir index ev.
Proof.
  intros Hb Hev.
  destruct ev; cbn [itemEvent]; try exact I;
    exists block; (split; [exact Hb | exact Hev]).
Qed.

Lemma itemEvent_sleeps (index n : nat) :
  Forall (itemEvent cfg blocks base dir index) (repeat (Sleep 50) n).
Proof. induction n; constructor; [exact I | assumption]. Qed.

Lemma reported_more (index : nat) (block : Extract.MermaidBlock)
    (r : rendering) (evs evs' : list event) :
  (forall ev, In ev evs -> In ev evs') ->
  reported E cfg base dir index block r evs ->
  reported E cfg base dir index block r evs'.
Proof.
  unfold reported. intros Hsub.
  destruct (fst (polled E r maxRetries 0)) as [svg|]; [|apply Hsub].
  destruct (encoded E cfg (prepend (fontStyle E) svg)) as [[buffer|]|e];
    try apply Hsub.
  intros Hw H1 H2 H3. apply Hsub. auto.
Qed.

(** One turn of the loop. *)
Lemma exportOne_run (isBulk : bool) (index : nat) (w : world) :
  let result := exportOne E cfg blocks base dir isBulk index w in
  exists evs,
    log (snd result) = log w ++ evs /\
    Forall (itemEvent cfg blocks base dir index) evs /\
    match blocks !! index with
    | Some block =>
        let r := engine E (renders w) (renderMarkup E (Extract.code block)) in
        match rejects r with
        | None =>
            fst result = Ok tt /\ renders (snd result) = S (renders w) /\
            renderCalls evs = 1 /\
            reported E cfg base dir index block r evs
        | Some e => fst result = Throw e
        end
    | None => exists e, fst result = Throw e
    end.
Proof.
  cbv zeta. unfold exportOne.
  destruct (blocks !! index) as [block|] eqn:Hblock.
  - unfold bind.
    destruct (rejects (engine E (renders w)
                         (renderMarkup E (Extract.code block)))) as [e|] eqn:Hr.
    + destruct (render_rejected E _ w e Hr) as (w1 & -> & _ & _ & _ & _ & Hl).
      exists [Render (renderMarkup E (Extract.code block))].
      cbn [fst snd]. repeat split; auto. repeat constructor.
    + destruct (render_resolved E _ w Hr) as (w1 & -> & _ & _ & Hrn & _ & Hl).
      unfold reported.
      set (r := engine E (renders w) (renderMarkup E (Extract.code block))) in *.
      destruct (fst (polled E r maxRetries 0)) as [svg|];
        cbn [fmap option_fmap option_map].
      * destruct (save_steady E cfg (prepend (fontStyle E) svg) base index
                    (Extract.heading block) (Some dir) isBulk w1)
          as (evs & _ & _ & Hrn1 & Hl1 & Hq & _).
        destruct (save_outcome E cfg (prepend (fontStyle E) svg) base index
                    (Extract.heading block) dir isBulk w1)
          as (evs' & Hl1' & Hout).
        assert (evs' = evs) as ->.
        { rewrite Hl1 in Hl1'. apply app_inv_head in Hl1'. congruence. }
        eexists. split; [rewrite Hl1, Hl, <- app_assoc; reflexivity|].
        split; [|split; [apply save_returns|split; [congruence|split]]].
        -- constructor; [exact I|]. apply Forall_app. split.
           ++ apply itemEvent_sleeps.
           ++ eapply Forall_impl; [exact Hq|].
              intros ev. apply savedEvent_item. exact Hblock.
        -- cbn [app]. change (Render ?m :: ?l) with ([Render m] ++ l).
           rewrite !renderCalls_app, renderCalls_sleeps,
             (renderCalls_saved _ _ Hq). reflexivity.
        -- destruct (encoded E cfg (prepend (fontStyle E) svg))
             as [[buffer|]|e];
             try (right; apply in_or_app; right; exact Hout).
           intros H1 H2 H3. right. apply in_or_app. right. auto.
      * unfold notice, emit. cbn [fst snd log renders].
        eexists. split; [rewrite Hl, <- app_assoc; reflexivity|].
        split; [|split; [reflexivity|split; [exact Hrn|split]]].
        -- constructor; [exact I|]. apply Forall_app. split.
           ++ apply itemEvent_sleeps.
           ++ repeat constructor.
        -- cbn [app]. change (Render ?m :: ?l) with ([Render m] ++ l).
           rewrite !renderCalls_app, renderCalls_sleeps. reflexivity.
        -- right. apply in_or_app. right. left. reflexivity.
  - exists []. cbn. rewrite app_nil_r. eauto.
Qed.

(** The loop over the selected indices. *)
Lemma loop_run (isBulk : bool) (indices : list nat) (w : world) :
  let result := forOf indices (exportOne E cfg blocks base dir isBulk) w in
  exists evs,
    log (snd result) = log w ++ evs /\
    Forall (fun ev => exists k, In k indices /\
                                itemEvent cfg blocks base dir k ev) evs /\
    ((forall k, In k indices -> is_Some (blocks !! k)) ->
     (forall n markup, rejects (engine E n markup) = None) ->
     fst result = Ok tt /\
     renders (snd result) = renders w + length indices /\
     renderCalls evs = length indices /\
     forall j k block,
       indices !! j = Some k -> blocks !! k = Some block ->
       reported E cfg base dir k block
         (engine E (renders w + j) (renderMarkup E (Extract.code block))) evs).
Proof.
  cbv zeta. revert w. induction indices as [|k rest IH]; intros w.
  - exists []. cbn. rewrite app_nil_r. repeat split; auto.
    intros j k block Hj. discriminate.
  - cbn [forOf]. unfold bind.
    destruct (exportOne_run isBulk k w) as (evs1 & Hl1 & Hq1 & Hcase).
    destruct (exportOne E cfg blocks base dir isBulk k w) as [[[]|e] w1];
      cbn [fst snd] in *.
    + destruct (IH w1) as (evs2 & Hl2 & Hq2 & Hgood).
      exists (evs1 ++ evs2). rewrite Hl2, Hl1, app_assoc.
      split; [reflexivity|]. split.
      * apply Forall_app. split.
        -- eapply Forall_impl; [exact Hq1|]. intros ev Hev.
           exists k. split; [left; reflexivity | exact Hev].
        -- eapply Forall_impl; [exact Hq2|]. intros ev (k' & Hin & Hev).
           exists k'. split; [right; exact Hin | exact Hev].
      * intros Hblocks Hres.
        destruct (Hblocks k (or_introl eq_refl)) as [block Hblock].
        rewrite Hblock in Hcase. cbv zeta in Hcase. rewrite Hres in Hcase.
        destruct Hcase as (_ & Hrn & Hcalls & Hrep).
        destruct Hgood as (Hok & Hrn2 & Hcalls2 & Hrep2); auto.
        { intros k' Hin. apply Hblocks. right. exact Hin. }
        split; [exact Hok|]. split; [rewrite Hrn2, Hrn; cbn; lia|].
        split; [rewrite renderCalls_app, Hcalls, Hcalls2; reflexivity|].
        intros [|j] k' block' Hj Hb'.
        -- cbn in Hj. injection Hj as <-. rewrite Hblock in Hb'.
           injection Hb' as <-. rewrite Nat.add_0_r.
           eapply reported_more; [|exact Hrep].
           intros ev Hin. apply in_or_app. left. exact Hin.
        -- cbn in Hj. specialize (Hrep2 j k' block' Hj Hb').
           rewrite Hrn, Nat.add_succ_l, <- Nat.add_succ_r in Hrep2.
           eapply reported_more; [|exact Hrep2].
           intros ev Hin. apply in_or_app. right. exact Hin.
    + exists evs1. split; [exact Hl1|]. split.
      * eapply Forall_impl; [exact Hq1|]. intros ev Hev.
        exists k. split; [left; reflexivity | exact Hev].
      * intros Hblocks Hres. exfalso.
        destruct (Hblocks k (or_introl eq_refl)) as [block Hblock].
        rewrite Hblock in Hcase. cbv zeta in Hcase. rewrite Hres in Hcase.
        destruct Hcase as (Hok & _). discriminate.
Qed.

(** The indices the handler works through are the positions of the ticked
    boxes. *)
Lemma selectedIndices_spec (selected : list bool) (k : nat) :
  In k (selectedIndices selected) <-> selected !! k = Some true.
Proof.
  unfold selectedIndices. rewrite <- list_elem_of_In, list_elem_of_fmap.
  split.
  - intros (z & -> & Hz). apply list_elem_of_filter in Hz as [Hne Hz].
    apply elem_of_lookup_imap in Hz as (i & b & -> & Hi).
    destruct b; [|contradiction]. rewrite Nat2Z.id. exact Hi.
  - intros Hk. exists (Z.of_nat k). split; [rewrite Nat2Z.id; reflexivity|].
    apply list_elem_of_filter. split; [lia|].
    apply elem_of_lookup_imap. exists k, true. auto.
Qed.


(** The world in which the loop starts. *)
Lemma exportSelected_run (selected : list bool) (rest : list jsstring)
    (w : world) :
  selectedIndices selected <> [] ->
  dialogAvailable E = true ->
  showOpenDialog E = {| od_canceled := false; od_filePaths := dir :: rest |} ->
  let indices := selectedIndices selected in
  let w0 := {| body := body w; nextId := nextId w; renders := renders w;
               files := files w;
               log := ((log w ++ [OpenDirectoryDialog]) ++ [CloseModal])
                      ++ [Notice (exporting (length indices))] |} in
  let loop :=
    forOf indices (exportOne E cfg blocks base dir (1 <? length indices)) w0 in
  exists tail,
    log (snd (exportSelected E cfg blocks selected base w))
    = log (snd loop) ++ tail /\
    Forall closing tail /\
    (fst loop = Ok tt -> In (SetMessage (lit "Export finished.")) tail).
Proof.
  intros Hsel Hdialog Hopen indices w0 loop. subst loop w0 indices.
  unfold exportSelected.
  assert (Hlen : (length (selectedIndices selected) =? 0) = false).
  { revert Hsel. generalize (selectedIndices selected).
    intros [|k ks] Hsel; [contradiction | reflexivity]. }
  rewrite Hlen, Hdialog, Hopen. cbn [negb od_filePaths od_canceled].
  unfold notice. unfold bind, emit, tryCatch. cbv beta iota zeta.
  cbn [body nextId renders files log].
  match goal with |- context [forOf ?l ?f ?w0] =>
    destruct (forOf l f w0) as [[[]|e] w1] end; cbn [fst snd log];
    destruct ((1 <? length (selectedIndices selected)) && autoOpen cfg);
    cbn [fst snd log];
    rewrite <- ?app_assoc; eexists;
    (split; [reflexivity|]); (split; [repeat constructor|]);
    try discriminate; intros _; left; reflexivity.
Qed.

End ExportFacts.

Section ExportTheorems.

Context `{Host} (E : env) (cfg : settings).
Context (blocks : list Extract.MermaidBlock) (base : jsstring).

Lemma item_exported (dir : jsstring) (indices : list nat) (ev : event) :
  truthy dir = true ->
  (exists k, In k indices /\ itemEvent cfg blocks base dir k ev) ->
  exported cfg blocks base dir indices ev.
Proof.
  intros Hdir (k & Hin & Hev).
  destruct ev; cbn [exported]; try exact I;
    destruct Hev as (block & Hblock & Hev); cbn [savedEvent] in Hev;
    try contradiction.
  - unfold targetPath, targetGiven in Hev. rewrite Hdir in Hev. discriminate.
  - exists k, block. split; [exact Hin|]. split; [exact Hblock|].
    apply Hev. unfold targetPath, targetGiven. rewrite Hdir. reflexivity.
Qed.

Lemma exported_no_prompt (dir : jsstring) (indices : list nat)
    (evs : list event) :
  Forall (exported cfg blocks base dir indices) evs ->
  List.filter isPrompt evs = [].
Proof.
  induction 1 as [|ev evs Hev _ IH]; [reflexivity|].
  destruct ev; cbn; try exact IH; destruct Hev.
Qed.

Lemma closing_exported (dir : jsstring) (indices : list nat) (ev : event) :
  closing ev -> exported cfg blocks base dir indices ev.
Proof. intros Hc. destruct ev; cbn in *; try exact I; destruct Hc. Qed.


(** The events of a run of the handler that got a directory. *)
Lemma exportSelected_events (selected : list bool) (dir : jsstring)
    (rest : list jsstring) (w : world) :
  selectedIndices selected <> [] ->
  dialogAvailable E = true ->
  showOpenDialog E = {| od_canceled := false; od_filePaths := dir :: rest |} ->
  exists evs tail,
    log (snd (exportSelected E cfg blocks selected base w))
    = log w ++ [OpenDirectoryDialog; CloseModal;
                Notice (exporting (length (selectedIndices selected)))]
            ++ evs ++ tail /\
    Forall (fun ev => exists k, In k (selectedIndices selected) /\
                                itemEvent cfg blocks base dir k ev) evs /\
    Forall closing tail /\
    ((forall k, In k (selectedIndices selected) -> is_Some (blocks !! k)) ->
     (forall n markup, rejects (engine E n markup) = None) ->
     In (SetMessage (lit "Export finished.")) tail /\
     renderCalls evs = length (selectedIndices selected) /\
     forall j k block,
       selectedIndices selected !! j = Some k -> blocks !! k = Some block ->
       reported E cfg base dir k block
         (engine E (renders w + j) (renderMarkup E (Extract.code block))) evs).
Proof.
  intros Hsel Hdialog Hopen.
  destruct (exportSelected_run E cfg blocks base dir selected rest w
              Hsel Hdialog Hopen) as (tail & Hlog & Htail & Hdone).
  cbv zeta in Hlog, Hdone.
  match type of Hlog with context [forOf ?l ?f ?w0] =>
    destruct (loop_run E cfg blocks base dir
                (1 <? length (selectedIndices selected))
                (selectedIndices selected) w0)
      as (evs & Hl & Hq & Hgood) end.
  cbv zeta in Hl, Hgood. cbn [log renders] in Hl, Hgood.
  exists evs, tail. rewrite Hlog, Hl, <- !app_assoc.
  split; [reflexivity|]. split; [exact Hq|]. split; [exact Htail|].
  intros Hblocks Hres. destruct (Hgood Hblocks Hres) as (Hok & _ & Hn & Hrep).
  auto.
Qed.

Lemma selected_in_range (selected : list bool) (k : nat) :
  length selected = length blocks ->
  In k (selectedIndices selected) -> is_Some (blocks !! k).
Proof.
  intros Hlen Hin. apply selectedIndices_spec in Hin.
  apply lookup_lt_is_Some_2. rewrite <- Hlen.
  apply lookup_lt_Some in Hin. exact Hin.
Qed.

End ExportTheorems.

Section HandlerTheorems.

Context `{Host} (E : env) (cfg : settings).
Context (blocks : list Extract.MermaidBlock) (base : jsstring).


(** C9, as the code has it: for every selection of one block or more, the
    handler asks for the target directory once, with the directory picker,
    and shows no file-save prompt; every file is written under that
    directory, to the name built from the block. *)
Theorem directory_resolved_once (selected : list bool) (dir : jsstring)
    (rest : list jsstring) (w : world) :
  let indices := selectedIndices selected in
  let result := exportSelected E cfg blocks selected base w in
  indices <> [] ->
  dialogAvailable E = true ->
  showOpenDialog E = {| od_canceled := false; od_filePaths := dir :: rest |} ->
  truthy dir = true ->
  exists evs,
    log (snd result) = log w ++ OpenDirectoryDialog :: evs /\
    Forall (exported cfg blocks base dir indices) evs /\
    List.filter isPrompt (OpenDirectoryDialog :: evs) = [OpenDirectoryDialog].
Proof.
  intros indices result Hsel Hdialog Hopen Hdir.
  destruct (exportSelected_events E cfg blocks base selected dir rest w
              Hsel Hdialog Hopen) as (evs & tail & Hlog & Hq & Htail & _).
  assert (Hall : Forall (exported cfg blocks base dir indices)
                   ([CloseModal; Notice (exporting (length indices))]
                    ++ evs ++ tail)).
  { apply Forall_app. split; [repeat constructor|].
    apply Forall_app. split.
    - eapply Forall_impl; [exact Hq|]. intros ev.
      apply item_exported. exact Hdir.
    - eapply Forall_impl; [exact Htail|]. intros ev. apply closing_exported. }
  eexists. split; [exact Hlog|]. split; [exact Hall|].
  cbn [List.filter isPrompt]. f_equal.
  apply (exported_no_prompt cfg blocks base dir indices _ Hall).
Qed.

(** C10: the number in an output file name is the position of the block
    among all the extracted blocks, plus one, whatever else is selected:
    every file the handler writes goes to the name
    [<base>-<sanitized heading>-<k+1>.<format>] of a ticked block [k]; and
    when no render call rejects, overwriting is on and the write goes
    through, the file of every ticked block that was rendered and encoded is
    written under that name. *)
Theorem file_index_is_block_position (selected : list bool) (dir : jsstring)
    (rest : list jsstring) (w : world) :
  let indices := selectedIndices selected in
  let result := exportSelected E cfg blocks selected base w in
  let path k block :=
    pathJoin dir
      (base ++ lit "-" ++ sanitize (Extract.heading block) ++ lit "-"
       ++ decimal (k + 1) ++ lit "." ++ formatName (outputFormat cfg)) in
  indices <> [] ->
  length selected = length blocks ->
  dialogAvailable E = true ->
  showOpenDialog E = {| od_canceled := false; od_filePaths := dir :: rest |} ->
  truthy dir = true ->
  exists evs,
    log (snd result) = log w ++ evs /\
    (forall p d, In (WriteFile p d) evs ->
       exists k block,
         selected !! k = Some true /\ blocks !! k = Some block /\
         p = path k block) /\
    ((forall n markup, rejects (engine E n markup) = None) ->
     overwrite cfg = true ->
     forall j k block svg buffer,
       indices !! j = Some k -> blocks !! k = Some block ->
       fst (polled E (engine E (renders w + j)
                        (renderMarkup E (Extract.code block))) maxRetries 0)
       = Some svg ->
       encoded E cfg (prepend (fontStyle E) svg) = Ok (Some buffer) ->
       writeError E (path k block) = None ->
       In (WriteFile (path k block) buffer) evs).
Proof.
  intros indices result path Hsel Hlen Hdialog Hopen Hdir.
  destruct (exportSelected_events E cfg blocks base selected dir rest w
              Hsel Hdialog Hopen) as (evs & tail & Hlog & Hq & Htail & Hgood).
  eexists. split; [exact Hlog|]. split.
  - intros p d Hin.
    assert (Hev : exported cfg blocks base dir indices (WriteFile p d)).
    { apply in_app_or in Hin as [Hin|Hin].
      - destruct Hin as [Hin|[Hin|[Hin|[]]]]; discriminate.
      - apply in_app_or in Hin as [Hin|Hin].
        + rewrite Forall_forall in Hq. apply item_exported; [exact Hdir|].
          apply Hq. apply list_elem_of_In. exact Hin.
        + rewrite Forall_forall in Htail. apply closing_exported.
          apply Htail. apply list_elem_of_In. exact Hin. }
    destruct Hev as (k & block & Hk & Hblock & ->).
    exists k, block. apply selectedIndices_spec in Hk. auto.
  - intros Hres Hover j k block svg buffer Hj Hblock Hsvg Henc Hwrite.
    destruct Hgood as (_ & _ & Hrep); [|exact Hres|].
    { intros k'. apply selected_in_range. exact Hlen. }
    specialize (Hrep j k block Hj Hblock). unfold reported in Hrep.
    rewrite Hsvg, Henc in Hrep.
    apply in_or_app. right. apply in_or_app. left.
    apply Hrep; assumption.
Qed.

End HandlerTheorems.

Section HandlerExamples.

#[local] Existing Instance Sample.host.



(** One block selected: one directory prompt, no file-save prompt. *)
Lemma directory_resolved_once_witness :
  let result :=
    exportSelected Sample.drawing_env Sample.png Sample.blocks [true; false]
      (lit "Notes") Sample.start in
  exists evs,
    log (snd result) = log Sample.start ++ OpenDirectoryDialog :: evs /\
    Forall (exported Sample.png Sample.blocks (lit "Notes") (lit "/out")
              (selectedIndices [true; false])) evs /\
    List.filter isPrompt (OpenDirectoryDialog :: evs) = [OpenDirectoryDialog].
Proof.
  apply (directory_resolved_once Sample.drawing_env Sample.png Sample.blocks
           (lit "Notes") [true; false] (lit "/out") [] Sample.start).
  - vm_compute. discriminate.
  - reflexivity.
  - reflexivity.
  - reflexivity.
Defined.

(** C9 fails for a single selected block: the handler asks for a directory
    with the directory picker, shows no file-save prompt, and writes the
    file under the directory chosen. *)
Lemma single_selection_asks_directory :
  selectedIndices [true; false] = [0]
  /\ log (snd (exportSelected Sample.drawing_env Sample.png Sample.blocks
                 [true; false] (lit "Notes") Sample.start))
     = [OpenDirectoryDialog; CloseModal;
        Notice (lit "Exporting 1 diagram...");
        Render (renderMarkup Sample.drawing_env (lit "graph TD"));
        CreateCanvas 100 50;
        WriteFile (lit "/out/Notes-Sys-Arch-1.png")
          [Byte.x89; Byte.x50; Byte.x4e; Byte.x47];
        OpenPath (lit "/out/Notes-Sys-Arch-1.png");
        SetMessage (lit "Export finished.")].
Proof. vm_compute. split; reflexivity. Qed.

(** Only the second of two blocks selected: its file carries the number 2. *)
Lemma file_index_is_block_position_witness :
  let result :=
    exportSelected Sample.drawing_env Sample.png Sample.blocks [false; true]
      (lit "Notes") Sample.start in
  let path k block :=
    pathJoin (lit "/out")
      (lit "Notes" ++ lit "-" ++ sanitize (Extract.heading block) ++ lit "-"
       ++ decimal (k + 1) ++ lit "." ++ formatName PNG) in
  (exists evs,
    log (snd result) = log Sample.start ++ evs /\
    (forall p d, In (WriteFile p d) evs ->
       exists k block,
         [false; true] !! k = Some true /\ Sample.blocks !! k = Some block /\
         p = path k block) /\
    ((forall n markup, rejects (engine Sample.drawing_env n markup) = None) ->
     overwrite Sample.png = true ->
     forall j k block svg buffer,
       selectedIndices [false; true] !! j = Some k ->
       Sample.blocks !! k = Some block ->
       fst (polled Sample.drawing_env
              (engine Sample.drawing_env (renders Sample.start + j)
                 (renderMarkup Sample.drawing_env (Extract.code block)))
              maxRetries 0)
       = Some svg ->
       encoded Sample.drawing_env Sample.png (prepend (fontStyle Sample.drawing_env) svg)
       = Ok (Some buffer) ->
       writeError Sample.drawing_env (path k block) = None ->
       In (WriteFile (path k block) buffer) evs))
  /\ files (snd result)
     = {[ lit "/out/Notes-direct content-2.png"
          := File [Byte.x89; Byte.x50; Byte.x4e; Byte.x47] ]}.
Proof.
  split.
  - apply (file_index_is_block_position Sample.drawing_env Sample.png Sample.blocks
             (lit "Notes") [false; true] (lit "/out") [] Sample.start).
    + vm_compute. discriminate.
    + reflexivity.
    + reflexivity.
    + reflexivity.
    + reflexivity.
  - vm_compute. reflexivity.
Defined.

End HandlerExamples.

(** * Further properties *)

(** ** Trimmed code and odd fences *)

Section TrimFacts.

Import Extract.

Lemma trimStart_suffix (s : jsstring) : exists p, s = p ++ trimStart s.
Proof.
  induction s as [|c s [p Hp]]; [exists []; reflexivity|].
  cbn [trimStart]. destruct (isSpace c).
  - exists (c :: p). cbn. rewrite <- Hp. reflexivity.
  - exists []. reflexivity.
Qed.

Lemma trimStart_head (s r : jsstring) (c : N) :
  trimStart s = c :: r -> isSpace c = false.
Proof.
  induction s as [|a s IH]; [discriminate|]. cbn [trimStart].
  destruct (isSpace a) eqn:Ha; [exact IH|].
  intros Heq. injection Heq as <- _. exact Ha.
Qed.

Lemma trim_trimmed (s : jsstring) : trimmed (trim s) = true.
Proof.
  unfold trimmed. destruct (trim s) as [|c r] eqn:Ht; [reflexivity|].
  apply andb_true_iff. split; apply negb_true_iff.
  - unfold trim, trimEnd in Ht.
    destruct (trimStart_suffix (rev (trimStart s))) as [p Hp].
    apply (f_equal (@rev N)) in Hp. rewrite rev_involutive, rev_app_distr in Hp.
    rewrite Ht in Hp. cbn [app] in Hp.
    apply (trimStart_head s (r ++ rev p) c). exact Hp.
  - unfold trim, trimEnd in Ht.
    assert (Hlast : exists r', c :: r = r' ++ [List.last (c :: r) c]).
    { destruct (exists_last (l := c :: r)) as (r' & z & Hz); [discriminate|].
      exists r'. rewrite Hz at 2. rewrite last_last. exact Hz. }
    destruct Hlast as [r' Hr']. rewrite Hr' in Ht.
    apply (f_equal (@rev N)) in Ht. rewrite rev_involutive, rev_app_distr in Ht.
    cbn [rev app] in Ht.
    apply (trimStart_head _ _ _ Ht).
Qed.

(** X1: the code of every extracted block neither starts nor ends with a
    white-space code unit. *)
Theorem extracted_code_trimmed (content : jsstring)
    (cache : option CachedMetadata) :
  Forall (fun block => trimmed (code block) = true)
    (extractMermaidBlocks content cache).
Proof.
  rewrite extract_filter. apply Forall_forall. intros block Hin.
  apply list_elem_of_In, in_map_iff in Hin as (s & <- & _).
  apply trim_trimmed.
Qed.

(** X2: a closing fence longer than three backticks is stripped only in
    part: with [k] backticks more, the code ends with those [k] backticks. *)
Theorem long_closing_fence_remains (body : jsstring) (k : nat) :
  0 < k ->
  stripFences (fence ++ LF :: body ++ repeat 96%N k ++ backticks)
  = trim (body ++ repeat 96%N k).
Proof.
  intros Hk. unfold stripFences.
  rewrite deleteOpen
    by (apply startsWith_app; eexists; reflexivity).
  unfold Spec.withoutOpeningFence.
  rewrite drop_app_length. cbn [N.eqb LF Pos.eqb].
  rewrite app_assoc, deleteClose_plain; [reflexivity|].
  intros y Hy. destruct k as [|k]; [lia|].
  cbn [repeat] in Hy. rewrite repeat_cons, app_assoc in Hy.
  apply app_inj_tail in Hy as [_ Hy]. discriminate.
Qed.

End TrimFacts.

(** With one backtick more the code keeps a backtick at its end. *)
Lemma long_closing_fence_remains_witness :
  Extract.stripFences
    (Extract.fence ++ LF :: lit "graph TD" ++ repeat 96%N 1 ++ Extract.backticks)
  = trim (lit "graph TD" ++ repeat 96%N 1).
Proof. apply (long_closing_fence_remains (lit "graph TD") 1). lia. Defined.

(** ** What the poll finds *)

Section PollFacts.

Context `{Host} (E : env).





(** X4: the poll looks at one candidate only, the first SVG element without
    the copy-button class in tree order.  When that one lies inside a
    copy-button element, the poll finds nothing, whatever follows it in the
    container; if the container stays so, the call returns null after 200
    sleeps although a qualifying SVG may be there. *)
Theorem copy_button_hides_later_svg (code : jsstring) (w : world)
    (tag : jsstring) (cls : list jsstring) (attrs : list (jsstring * jsstring))
    (vb : number * number) (icon : node) (siblings : list node)
    (later : nat -> list node) :
  let r := engine E (renders w) (renderMarkup E code) in
  let button := El tag cls attrs vb (icon :: siblings) in
  rejects r = None ->
  existsb (jseqb copyCodeButton) cls = true ->
  matchesSvg icon = true ->
  (forall i, frames r i = button :: later i) ->
  exists w',
    renderMermaidToSvg E code w = (Ok None, w') /\
    log w' = log w ++ Render (renderMarkup E code) :: repeat (Sleep 50) 200.
Proof.
  intros r button Hres Hcls Hicon Hframes.
  destruct (render_resolved E code w Hres)
    as (w' & Hrun & _ & _ & _ & _ & Hlog).
  fold r in Hrun, Hlog.
  assert (Hp : polled E r maxRetries 0 = (None, 200)).
  { apply polled_none. intros j _. rewrite Hframes.
    unfold inspect. cbn [queryNodes]. unfold button at 1.
    rewrite queryNode_El. fold button.
    assert (Hb : matchesSvg button = false).
    { unfold matchesSvg, button, hasClass. rewrite Hcls.
      apply andb_false_r. }
    rewrite Hb. cbn [queryNodes].
    destruct icon as [s|itag icls iattrs ivb ikids]; [discriminate|].
    rewrite queryNode_El, Hicon.
    unfold closestButton. cbn [fst snd find app].
    assert (Hi : hasClass copyCodeButton (El itag icls iattrs ivb ikids) = false).
    { unfold matchesSvg in Hicon. apply andb_true_iff in Hicon as [_ Hi].
      apply negb_true_iff in Hi. exact Hi. }
    rewrite Hi. unfold button at 1. cbn [hasClass]. rewrite Hcls.
    reflexivity. }
  rewrite Hp in Hrun, Hlog. exists w'. split; assumption.
Qed.



End PollFacts.

(** ** Writing the file *)

Section WriteFacts.

Context `{Host} (E : env) (cfg : settings).

Lemma makeBuffer_run (svg : node) (w : world) :
  exists w1,
    makeBuffer E cfg svg (scaledMarkup cfg svg) w = (encoded E cfg svg, w1) /\
    body w1 = body w /\ nextId w1 = nextId w /\ renders w1 = renders w /\
    files w1 = files w /\ log w1 = log w ++ canvasEvents cfg svg.
Proof.
  pose proof (makeBuffer_encoded E cfg svg w) as He.
  pose proof (makeBuffer_world E cfg svg (scaledMarkup cfg svg) w) as Hw.
  destruct (makeBuffer E cfg svg (scaledMarkup cfg svg) w) as [o w1].
  cbn [fst snd] in *. subst o. exists w1. split; [reflexivity | exact Hw].
Qed.

(** X6: with a directory, a buffer, and either [overwrite] on or the target
    path free, [saveSvgAsImage] writes the buffer to the file name under the
    directory and leaves every other file as it was, opening the file
    afterwards when [autoOpen] is on and [skipOpen] is off; when the write
    throws, the files are as they were and the failure is reported with the
    notice [Save failed: <message>].  Either way it returns normally. *)
Theorem save_into_directory (svg : node) (base : jsstring) (index : nat)
    (heading dir : jsstring) (skipOpen : bool) (buffer : bytes) (w : world) :
  let path :=
    pathJoin dir (defaultFileName base heading index (outputFormat cfg)) in
  let result :=
    saveSvgAsImage E cfg svg base index heading (Some dir) skipOpen w in
  truthy dir = true ->
  encoded E cfg svg = Ok (Some buffer) ->
  overwrite cfg = true \/ files w !! path = None ->
  fst result = Ok tt /\
  match writeError E path with
  | None =>
      files (snd result) = <[path := File buffer]> (files w) /\
      log (snd result)
      = log w ++ canvasEvents cfg svg
        ++ WriteFile path buffer :: openEvents cfg skipOpen path
  | Some e =>
      files (snd result) = files w /\
      log (snd result)
      = log w ++ canvasEvents cfg svg
        ++ [Notice (lit "Save failed: " ++ messageText e)]
  end.
Proof.
  intros path result Hdir Henc Hfree. subst result.
  split; [apply save_returns|].
  unfold saveSvgAsImage, tryCatch, bind. fold path.
  destruct (makeBuffer_run svg w) as (w1 & -> & _ & _ & _ & Hf & Hl).
  rewrite Henc.
  unfold choosePath, targetGiven, bind, existsSync. rewrite Hdir. fold path.
  assert (Hgo : bool_decide (is_Some (files w1 !! path))
                && negb (overwrite cfg) = false).
  { destruct Hfree as [Hover|Hnone].
    - rewrite Hover. apply andb_false_r.
    - rewrite Hf, Hnone.
      rewrite bool_decide_eq_false_2; [reflexivity|].
      intros [x Hx]. discriminate. }
  assert (Htp : truthy path = true) by apply pathJoin_truthy.
  rewrite Hgo. cbn [ret]. rewrite Htp.
  unfold writeFileSync, openEvents. destruct (writeError E path) as [e|].
  - unfold notice, emit. cbn [snd files log].
    split; [exact Hf|]. rewrite Hl, <- app_assoc. reflexivity.
  - destruct (autoOpen cfg && negb skipOpen); unfold emit, ret;
      cbn [snd files log]; rewrite Hf, Hl, <- ?app_assoc; split; reflexivity.
Qed.

(** X7: without a directory [saveSvgAsImage] asks with the file-save prompt,
    proposing the default file name.  When the prompt is cancelled or gives
    no path, nothing is written; the path it gives is written without
    looking at what is there or at the [overwrite] setting; and without a
    dialog the call gives up with a notice. *)
Theorem save_with_prompt (svg : node) (base : jsstring) (index : nat)
    (heading : jsstring) (target : option jsstring) (skipOpen : bool)
    (buffer : bytes) (w : world) :
  let name := defaultFileName base heading index (outputFormat cfg) in
  let result :=
    saveSvgAsImage E cfg svg base index heading target skipOpen w in
  targetGiven target = None ->
  encoded E cfg svg = Ok (Some buffer) ->
  if dialogAvailable E then
    match chosenPath (showSaveDialog E name) with
    | None =>
        files (snd result) = files w /\
        log (snd result) = log w ++ canvasEvents cfg svg ++ [SaveDialog name]
    | Some path =>
        match writeError E path with
        | None =>
            files (snd result) = <[path := File buffer]> (files w) /\
            log (snd result)
            = log w ++ canvasEvents cfg svg
              ++ SaveDialog name :: WriteFile path buffer
                 :: openEvents cfg skipOpen path
        | Some e =>
            files (snd result) = files w /\
            log (snd result)
            = log w ++ canvasEvents cfg svg
              ++ [SaveDialog name;
                  Notice (lit "Save failed: " ++ messageText e)]
        end
    end
  else
    files (snd result) = files w /\
    log (snd result)
    = log w ++ canvasEvents cfg svg
      ++ [Notice (lit "Electron dialog not available.")].
Proof.
  intros name result Htarget Henc. subst result.
  unfold saveSvgAsImage, tryCatch, bind. fold name.
  destruct (makeBuffer_run svg w) as (w1 & -> & _ & _ & _ & Hf & Hl).
  rewrite Henc. unfold choosePath, bind, chosenPath, openEvents.
  rewrite Htarget. unfold notice. unfold emit, ret, writeFileSync.
  destruct (dialogAvailable E); cbn [negb]; cbv beta iota.
  - destruct (negb (sd_canceled (showSaveDialog E name))
              && given (sd_filePath (showSaveDialog E name))) eqn:Hgo;
      cbv beta iota.
    + apply andb_true_iff in Hgo as [_ Hgiven].
      destruct (sd_filePath (showSaveDialog E name)) as [path|];
        [|discriminate].
      cbn [given] in Hgiven. rewrite Hgiven.
      destruct (writeError E path) as [e|]; cbv beta iota.
      * cbn [snd files log]. split; [exact Hf|].
        rewrite Hl, <- !app_assoc. reflexivity.
      * destruct (autoOpen cfg && negb skipOpen); cbv beta iota;
          cbn [snd files log]; rewrite Hf, Hl, <- ?app_assoc;
          split; reflexivity.
    + cbn [snd files log]. split; [exact Hf|].
      rewrite Hl, <- app_assoc. reflexivity.
  - cbn [snd files log]. split; [exact Hf|].
    rewrite Hl, <- app_assoc. reflexivity.
Qed.

End WriteFacts.

(** ** The selection *)

Section SelectionFacts.

Lemma selectedIndices_ticked (selected : list bool) :
  selectedIndices selected = ticked 0 selected.
Proof.
  unfold selectedIndices.
  enough (Hgen : forall off,
             Z.to_nat <$>
               filter (fun idx => idx ≠ (-1)%Z)
                 (imap (fun idx (val : bool) =>
                          if val then Z.of_nat (off + idx) else (-1)%Z)
                    selected)
             = ticked off selected) by apply (Hgen 0).
  induction selected as [|b rest IH]; intros off; [reflexivity|].
  rewrite imap_cons. cbn [ticked].
  rewrite (imap_ext _ (fun idx (val : bool) =>
                         if val then Z.of_nat (S off + idx) else (-1)%Z));
    [|intros i x _; cbn; rewrite Nat.add_succ_r; reflexivity].
  destruct b.
  - rewrite filter_cons_True by lia. cbn [fmap list_fmap app].
    rewrite Nat.add_0_r, Nat2Z.id. f_equal. apply IH.
  - rewrite filter_cons_False by (intros Hne; apply Hne; reflexivity).
    apply IH.
Qed.

Lemma ticked_ge (off : nat) (selected : list bool) (k : nat) :
  In k (ticked off selected) -> off <= k.
Proof.
  revert off. induction selected as [|b rest IH]; intros off; [intros []|].
  cbn [ticked]. intros Hin. apply in_app_or in Hin as [Hin|Hin].
  - destruct b; [destruct Hin as [<-|[]]; lia | destruct Hin].
  - apply IH in Hin. lia.
Qed.

Lemma ticked_increasing (off : nat) (selected : list bool) :
  increasing (ticked off selected).
Proof.
  revert off. induction selected as [|b rest IH]; intros off.
  - intros i j a c _ Hi. destruct i; discriminate.
  - cbn [ticked]. destruct b; [|apply IH].
    intros i j a c Hij Hi Hj. destruct j as [|j]; [lia|].
    cbn in Hj. destruct i as [|i].
    + cbn in Hi. injection Hi as <-.
      assert (S off <= c); [|lia].
      apply (ticked_ge (S off) rest). apply list_elem_of_In.
      eapply list_elem_of_lookup_2. exact Hj.
    + cbn in Hi. apply (IH (S off) i j a c); [lia | exact Hi | exact Hj].
Qed.

Lemma ticked_length (off : nat) (selected : list bool) :
  length (ticked off selected) = length (List.filter id selected).
Proof.
  revert off. induction selected as [|b rest IH]; intros off; [reflexivity|].
  cbn [ticked List.filter]. rewrite length_app, IH.
  destruct b; reflexivity.
Qed.

(** X8: the indices the export handler works through are the positions of
    the ticked boxes, each once, in rising order. *)
Theorem selected_indices_in_order (selected : list bool) :
  increasing (selectedIndices selected) /\
  length (selectedIndices selected) = length (List.filter id selected) /\
  forall k, In k (selectedIndices selected) <-> selected !! k = Some true.
Proof.
  rewrite selectedIndices_ticked.
  split; [apply ticked_increasing|]. split; [apply ticked_length|].
  intros k. rewrite <- selectedIndices_ticked. apply selectedIndices_spec.
Qed.

End SelectionFacts.

(** ** Paths through the export handler *)

Section LoopFacts.

Context `{Host} (E : env) (cfg : settings).
Context (blocks : list Extract.MermaidBlock) (base dir : jsstring).

(** One turn of the loop, taken apart. *)
Lemma exportOne_cases (isBulk : bool) (index : nat) (w : world) :
  match blocks !! index with
  | None => exists e, exportOne E cfg blocks base dir isBulk index w = (Throw e, w)
  | Some block =>
      let markup := renderMarkup E (Extract.code block) in
      let r := engine E (renders w) markup in
      match rejects r with
      | Some e =>
          exists w1,
            exportOne E cfg blocks base dir isBulk index w = (Throw e, w1) /\
            body w1 = body w ++ [nextId w] /\ files w1 = files w /\
            log w1 = log w ++ [Render markup]
      | None =>
          exists w1,
            body w1 = filter (fun x => x ≠ nextId w) (body w ++ [nextId w]) /\
            nextId w1 = S (nextId w) /\ renders w1 = S (renders w) /\
            files w1 = files w /\
            log w1 = log w ++ Render markup
                     :: repeat (Sleep 50) (snd (polled E r maxRetries 0)) /\
            exportOne E cfg blocks base dir isBulk index w
            = match fst (polled E r maxRetries 0) with
              | Some svg =>
                  saveSvgAsImage E cfg (prepend (fontStyle E) svg) base index
                    (Extract.heading block) (Some dir) isBulk w1
              | None => notice (renderFailed index) w1
              end
      end
  end.
Proof.
  unfold exportOne. destruct (blocks !! index) as [block|]; [|eauto].
  cbv zeta. unfold bind.
  destruct (rejects (engine E (renders w)
                       (renderMarkup E (Extract.code block)))) as [e|] eqn:Hr.
  - destruct (render_rejected E _ w e Hr) as (w1 & -> & Hb & _ & _ & Hf & Hl).
    exists w1. auto.
  - destruct (render_resolved E _ w Hr) as (w1 & -> & Hb & Hn & Hrn & Hf & Hl).
    exists w1. repeat (split; [assumption|]).
    destruct (fst (polled E _ maxRetries 0)); reflexivity.
Qed.

(** A relation between worlds that every turn keeps is kept by the loop. *)
Lemma forOf_invariant {A} (I : world -> world -> Prop) (f : A -> M unit)
    (xs : list A) :
  (forall w, I w w) ->
  (forall a b c, I a b -> I b c -> I a c) ->
  (forall x w, In x xs -> I w (snd (f x w))) ->
  forall w, I w (snd (forOf xs f w)).
Proof.
  intros Hrefl Htrans. induction xs as [|x xs IH]; intros Hf w.
  - apply Hrefl.
  - cbn [forOf]. unfold bind.
    pose proof (Hf x w (or_introl eq_refl)) as Hx.
    destruct (f x w) as [[[]|e] w1]; cbn [snd] in *; [|exact Hx].
    eapply Htrans; [exact Hx|]. apply IH.
    intros y w' Hy. apply Hf. right. exact Hy.
Qed.

(** The run of the handler once a directory is chosen. *)
Lemma exportSelected_exact (selected : list bool) (rest : list jsstring)
    (w : world) :
  selectedIndices selected <> [] ->
  dialogAvailable E = true ->
  showOpenDialog E = {| od_canceled := false; od_filePaths := dir :: rest |} ->
  let indices := selectedIndices selected in
  let isBulk := 1 <? length indices in
  let w0 := {| body := body w; nextId := nextId w; renders := renders w;
               files := files w;
               log := ((log w ++ [OpenDirectoryDialog]) ++ [CloseModal])
                      ++ [Notice (exporting (length indices))] |} in
  let loop := forOf indices (exportOne E cfg blocks base dir isBulk) w0 in
  let result := exportSelected E cfg blocks selected base w in
  body (snd result) = body (snd loop) /\
  nextId (snd result) = nextId (snd loop) /\
  renders (snd result) = renders (snd loop) /\
  files (snd result) = files (snd loop) /\
  log (snd result)
  = log (snd loop) ++ finishEvents (fst loop)
    ++ directoryOpened cfg isBulk dir.
Proof.
  intros Hsel Hdialog Hopen indices isBulk w0 loop result.
  subst result loop w0 isBulk indices.
  unfold exportSelected.
  assert (Hlen : (length (selectedIndices selected) =? 0) = false).
  { revert Hsel. generalize (selectedIndices selected).
    intros [|k ks] Hsel; [contradiction | reflexivity]. }
  rewrite Hlen, Hdialog, Hopen. cbn [negb od_filePaths od_canceled].
  unfold notice. unfold bind, emit, tryCatch, directoryOpened, finishEvents.
  cbv beta iota zeta. cbn [body nextId renders files log].
  match goal with |- context [forOf ?l ?f ?w0] =>
    destruct (forOf l f w0) as [[[]|e] w1] end; cbn [fst snd log];
    destruct ((1 <? length (selectedIndices selected)) && autoOpen cfg);
    cbn [fst snd body nextId renders files log];
    rewrite <- ?app_assoc, ?app_nil_r; repeat split; reflexivity.
Qed.

End LoopFacts.

Section EarlyExits.

Context `{Host} (E : env) (cfg : settings).
Context (blocks : list Extract.MermaidBlock) (base : jsstring).

(** The ways out of the handler before the loop. *)
Lemma exportSelected_stops (selected : list bool) (w : world) :
  let result := exportSelected E cfg blocks selected base w in
  let stop evs :=
    fst result = Ok tt /\ body (snd result) = body w /\
    files (snd result) = files w /\ renders (snd result) = renders w /\
    log (snd result) = log w ++ evs in
  if length (selectedIndices selected) =? 0
  then stop [Notice (lit "No blocks selected")]
  else if negb (dialogAvailable E)
  then stop [Notice (lit "Electron dialog not available.")]
  else od_canceled (showOpenDialog E) = true \/
       od_filePaths (showOpenDialog E) = [] ->
       stop [OpenDirectoryDialog].
Proof.
  cbv zeta. unfold exportSelected.
  destruct (length (selectedIndices selected) =? 0);
    [cbn; repeat split; reflexivity|].
  destruct (negb (dialogAvailable E)); [cbn; repeat split; reflexivity|].
  intros Hstop. unfold bind, emit.
  destruct (od_filePaths (showOpenDialog E)) as [|d rest];
    [cbn; repeat split; reflexivity|].
  destruct Hstop as [Hc|Hc]; [|discriminate].
  rewrite Hc. cbn. repeat split; reflexivity.
Qed.

(** X9: the handler gives up before anything is rendered or written: with
    nothing ticked it shows [No blocks selected] and asks nothing; without a
    dialog it shows [Electron dialog not available.]; and when the
    directory prompt is cancelled or answers no path it shows nothing at
    all.  Document, files and render counter are as they were. *)
Theorem export_gives_up_early (selected : list bool) (w : world) :
  let result := exportSelected E cfg blocks selected base w in
  let stop evs :=
    fst result = Ok tt /\ body (snd result) = body w /\
    files (snd result) = files w /\ renders (snd result) = renders w /\
    log (snd result) = log w ++ evs in
  if length (selectedIndices selected) =? 0
  then stop [Notice (lit "No blocks selected")]
  else if negb (dialogAvailable E)
  then stop [Notice (lit "Electron dialog not available.")]
  else od_canceled (showOpenDialog E) = true \/
       od_filePaths (showOpenDialog E) = [] ->
       stop [OpenDirectoryDialog].
Proof.
  cbv zeta. unfold exportSelected.
  destruct (length (selectedIndices selected) =? 0);
    [cbn; repeat split; reflexivity|].
  destruct (negb (dialogAvailable E)); [cbn; repeat split; reflexivity|].
  intros Hstop. unfold bind, emit.
  destruct (od_filePaths (showOpenDialog E)) as [|d rest];
    [cbn; repeat split; reflexivity|].
  destruct Hstop as [Hc|Hc]; [|discriminate].
  rewrite Hc. cbn. repeat split; reflexivity.
Qed.

End EarlyExits.

(** ** What a whole export keeps *)

Section KeptFacts.

Context `{Host} (E : env) (cfg : settings).
Context (blocks : list Extract.MermaidBlock) (base : jsstring).

(** With [overwrite] off, a save into a directory only adds a file. *)
Lemma save_keeps_files (svg : node) (index : nat) (heading dir : jsstring)
    (skipOpen : bool) (w : world) :
  overwrite cfg = false ->
  truthy dir = true ->
  files w ⊆ files (snd (saveSvgAsImage E cfg svg base index heading
                          (Some dir) skipOpen w)).
Proof.
  intros Hover Hdir.
  unfold saveSvgAsImage, tryCatch, bind.
  destruct (makeBuffer_run E cfg svg w) as (w1 & -> & _ & _ & _ & Hf & _).
  rewrite <- Hf.
  destruct (encoded E cfg svg) as [[buffer|]|e]; try reflexivity.
  unfold choosePath, targetGiven, bind, existsSync. rewrite Hdir, Hover.
  set (path := pathJoin dir _).
  assert (Htp : truthy path = true) by apply pathJoin_truthy.
  cbn [negb]. rewrite andb_true_r.
  destruct (bool_decide (is_Some (files w1 !! path))) eqn:Hex.
  - destruct (negb skipOpen); reflexivity.
  - apply bool_decide_eq_false in Hex.
    cbn [ret]. rewrite Htp. unfold writeFileSync.
    destruct (writeError E path); [reflexivity|].
    assert (Hsub : files w1 ⊆ <[path := File buffer]> (files w1)).
    { apply insert_subseteq. destruct (files w1 !! path) eqn:Hp;
        [exfalso; apply Hex; eauto | reflexivity]. }
    destruct (autoOpen cfg && negb skipOpen); exact Hsub.
Qed.

Lemma exportOne_keeps_files (dir : jsstring) (isBulk : bool) (index : nat)
    (w : world) :
  overwrite cfg = false ->
  truthy dir = true ->
  files w ⊆ files (snd (exportOne E cfg blocks base dir isBulk index w)).
Proof.
  intros Hover Hdir.
  pose proof (exportOne_cases E cfg blocks base dir isBulk index w) as Hc.
  destruct (blocks !! index) as [block|]; [|destruct Hc as [e ->]; reflexivity].
  cbv zeta in Hc.
  destruct (rejects _) as [e|].
  - destruct Hc as (w1 & -> & _ & Hf & _). cbn [snd]. rewrite Hf. reflexivity.
  - destruct Hc as (w1 & _ & _ & _ & Hf & _ & ->). rewrite <- Hf.
    destruct (fst (polled E _ maxRetries 0)) as [svg|]; [|reflexivity].
    apply save_keeps_files; assumption.
Qed.

(** X10: with [overwrite] off, an export into a directory never replaces or
    removes a file: whatever was in the file system before the export is
    there, unchanged, after it. *)
Theorem export_keeps_existing_files (selected : list bool) (w : world) :
  overwrite cfg = false ->
  (forall dir rest,
      od_filePaths (showOpenDialog E) = dir :: rest -> truthy dir = true) ->
  files w ⊆ files (snd (exportSelected E cfg blocks selected base w)).
Proof.
  intros Hover Hdirs.
  pose proof (exportSelected_stops E cfg blocks base selected w) as Hearly.
  cbv zeta in Hearly.
  destruct (length (selectedIndices selected) =? 0) eqn:Hlen.
  { destruct Hearly as (_ & _ & -> & _). reflexivity. }
  destruct (dialogAvailable E) eqn:Hdialog; cbn [negb] in Hearly;
    [|destruct Hearly as (_ & _ & -> & _); reflexivity].
  destruct (showOpenDialog E) as [canceled paths] eqn:Hopen.
  cbn [od_canceled od_filePaths] in *.
  destruct paths as [|dir rest];
    [destruct Hearly as (_ & _ & -> & _); auto|].
  destruct canceled; [destruct Hearly as (_ & _ & -> & _); auto|].
  assert (Hsel : selectedIndices selected <> []).
  { intros Heq. rewrite Heq in Hlen. discriminate. }
  destruct (exportSelected_exact E cfg blocks base dir selected rest w
              Hsel Hdialog Hopen) as (_ & _ & _ & -> & _).
  match goal with |- context [forOf ?l ?f ?w0] =>
    change (files w) with (files w0) end.
  apply (forOf_invariant (fun a b => files a ⊆ files b)).
  - reflexivity.
  - intros a b c Hab Hbc. etrans; eassumption.
  - intros k w' _. apply exportOne_keeps_files; [exact Hover|].
    apply (Hdirs dir rest). reflexivity.
Qed.

Lemma filter_fresh (w : world) :
  fresh w ->
  filter (fun x => x ≠ nextId w) (body w ++ [nextId w]) = body w.
Proof.
  unfold fresh. generalize (nextId w) as n. generalize (body w) as l.
  induction l as [|a l IH]; intros n Hfresh.
  - cbn [app].
    rewrite filter_cons_False by (intros Hne; apply Hne; reflexivity).
    reflexivity.
  - cbn [app]. rewrite filter_cons_True.
    + f_equal. apply IH. intros x Hx. apply Hfresh. right. exact Hx.
    + specialize (Hfresh a (or_introl eq_refl)). lia.
Qed.

Lemma exportOne_keeps_body (dir : jsstring) (isBulk : bool) (index : nat)
    (w : world) :
  (forall n markup, rejects (engine E n markup) = None) ->
  fresh w ->
  fresh (snd (exportOne E cfg blocks base dir isBulk index w)) /\
  body (snd (exportOne E cfg blocks base dir isBulk index w)) = body w.
Proof.
  intros Hres Hfresh.
  pose proof (exportOne_cases E cfg blocks base dir isBulk index w) as Hc.
  destruct (blocks !! index) as [block|];
    [|destruct Hc as [e ->]; split; [exact Hfresh | reflexivity]].
  cbv zeta in Hc. rewrite Hres in Hc.
  destruct Hc as (w1 & Hb & Hn & _ & _ & _ & ->).
  rewrite (filter_fresh w Hfresh) in Hb.
  assert (Hfresh1 : fresh w1).
  { intros x Hx. rewrite Hb in Hx. rewrite Hn.
    specialize (Hfresh x Hx). lia. }
  destruct (fst (polled E _ maxRetries 0)) as [svg|].
  - destruct (save_steady E cfg (prepend (fontStyle E) svg) base index
                (Extract.heading block) (Some dir) isBulk w1)
      as (evs & Hb1 & Hn1 & _).
    split; [|congruence].
    intros x Hx. rewrite Hb1 in Hx. rewrite Hn1. apply Hfresh1. exact Hx.
  - cbn. split; [exact Hfresh1 | exact Hb].
Qed.

(** X11: when no render call rejects, an export leaves no container
    behind: the children of the document body after the export are those
    before it, however many blocks were rendered. *)
Theorem export_leaves_no_container (selected : list bool) (w : world) :
  fresh w ->
  (forall n markup, rejects (engine E n markup) = None) ->
  body (snd (exportSelected E cfg blocks selected base w)) = body w.
Proof.
  intros Hfresh Hres.
  pose proof (exportSelected_stops E cfg blocks base selected w) as Hearly.
  cbv zeta in Hearly.
  destruct (length (selectedIndices selected) =? 0) eqn:Hlen.
  { destruct Hearly as (_ & -> & _). reflexivity. }
  destruct (dialogAvailable E) eqn:Hdialog; cbn [negb] in Hearly;
    [|destruct Hearly as (_ & -> & _); reflexivity].
  destruct (showOpenDialog E) as [canceled paths] eqn:Hopen.
  cbn [od_canceled od_filePaths] in *.
  destruct paths as [|dir rest];
    [destruct Hearly as (_ & -> & _); auto|].
  destruct canceled; [destruct Hearly as (_ & -> & _); auto|].
  assert (Hsel : selectedIndices selected <> []).
  { intros Heq. rewrite Heq in Hlen. discriminate. }
  destruct (exportSelected_exact E cfg blocks base dir selected rest w
              Hsel Hdialog Hopen) as (-> & _).
  match goal with |- context [forOf ?l ?f ?w0] => set (start := w0) end.
  assert (Hfresh0 : fresh start) by exact Hfresh.
  change (body w) with (body start).
  apply (forOf_invariant
           (fun a b => fresh a -> fresh b /\ body b = body a));
    [auto| | |exact Hfresh0].
  - intros a b c Hab Hbc Ha. destruct (Hab Ha) as [Hb Heq].
    destruct (Hbc Hb) as [Hc Heq']. split; [exact Hc | congruence].
  - intros k w' _ Hw'. apply exportOne_keeps_body; assumption.
Qed.

End KeptFacts.

(** ** What is opened and what is rendered *)

Section OpenFacts.

Context `{Host} (E : env) (cfg : settings).
Context (blocks : list Extract.MermaidBlock) (base : jsstring).

Lemma steady_choosePath_prompt (name : jsstring) (target : option jsstring)
    (skipOpen : bool) :
  steady promptOrNotice
    (fun chosen =>
       forall p, chosen = Some (Some p) ->
                 forall path, targetPath target name = Some path -> p = path)
    (choosePath E cfg name target skipOpen).
Proof.
  unfold choosePath, targetPath. destruct (targetGiven target) as [dir|].
  - eapply steady_bind; [apply steady_existsSync|]. intros present _.
    destruct (present && negb (overwrite cfg)).
    + eapply steady_bind with (R := anything).
      * destruct (negb skipOpen);
          [apply steady_emit; exact I | apply steady_ret; exact I].
      * intros _ _. apply steady_ret. discriminate.
    + apply steady_ret. intros p Hp path Hpath.
      injection Hp as <-. injection Hpath as <-. reflexivity.
  - destruct (negb (dialogAvailable E)).
    + eapply steady_bind with (R := anything);
        [apply steady_emit; exact I|].
      intros _ _. apply steady_ret. discriminate.
    + eapply steady_bind with (R := anything);
        [apply steady_emit; exact I|].
      intros _ _.
      destruct (negb (sd_canceled (showSaveDialog E name))
                && given (sd_filePath (showSaveDialog E name)));
        apply steady_ret; discriminate.
Qed.

Lemma steady_makeBuffer_canvas (svg : node) (data : jsstring) :
  steady canvasOnly anything (makeBuffer E cfg svg data).
Proof.
  unfold makeBuffer. destruct (outputFormat cfg); [|apply steady_ret; exact I].
  destruct (canvasSize cfg svg) as [cw ch].
  eapply steady_bind; [apply steady_emit with (R := anything); exact I|].
  intros _ _. destruct (context2d E); [|apply steady_ret; exact I].
  destruct (rasterize E data cw ch);
    [apply steady_throw | apply steady_ret; exact I].
Qed.

(** [saveSvgAsImage] opens the file it wrote, and only when [autoOpen] is on
    and [skipOpen] is off. *)
Lemma save_opens (svg : node) (index : nat) (heading : jsstring)
    (target : option jsstring) (skipOpen : bool) :
  steady
    (opensOwnFile cfg skipOpen
       (targetPath target
          (defaultFileName base heading index (outputFormat cfg))))
    anything
    (saveSvgAsImage E cfg svg base index heading target skipOpen).
Proof.
  unfold saveSvgAsImage.
  apply steady_tryCatch; [|intros e; apply steady_emit; exact I].
  eapply steady_bind.
  { eapply steady_mono; [|apply steady_makeBuffer_canvas].
    intros [] Hev; cbn in *; auto; contradiction. }
  intros [buffer|] _; [|apply steady_emit; exact I].
  eapply steady_bind.
  { eapply steady_mono; [|apply steady_choosePath_prompt].
    intros [] Hev; cbn in *; auto; contradiction. }
  intros [[finalPath|]|] Hp; try (apply steady_ret; exact I).
  destruct (truthy finalPath); [|apply steady_ret; exact I].
  eapply steady_bind; [apply steady_writeFileSync; exact I|].
  intros _ _. destruct (autoOpen cfg) eqn:Hauto, skipOpen; cbn [negb andb];
    try (apply steady_ret; exact I).
  apply steady_emit; [|exact I]. cbn.
  split; [exact Hauto|]. split; [reflexivity|].
  apply (Hp finalPath eq_refl).
Qed.

Lemma opened_app (a b : list event) : opened (a ++ b) = opened a ++ opened b.
Proof. apply flat_map_app. Qed.

Lemma rendered_app (a b : list event) :
  rendered (a ++ b) = rendered a ++ rendered b.
Proof. apply flat_map_app. Qed.

Lemma opened_sleeps (n : nat) : opened (repeat (Sleep 50) n) = [].
Proof. induction n; [reflexivity | assumption]. Qed.

Lemma rendered_sleeps (n : nat) : rendered (repeat (Sleep 50) n) = [].
Proof. induction n; [reflexivity | assumption]. Qed.

Lemma rendered_saved (t : option jsstring) (evs : list event) :
  Forall (savedEvent t) evs -> rendered evs = [].
Proof.
  induction 1 as [|ev evs Hev _ IH]; [reflexivity|].
  destruct ev; try destruct Hev; exact IH.
Qed.

Lemma opensSelectedFile_sleeps dir isBulk indices (n : nat) :
  Forall (opensSelectedFile cfg blocks base dir isBulk indices)
    (repeat (Sleep 50) n).
Proof. induction n; constructor; [exact I | assumption]. Qed.

(** One turn of the loop opens nothing but the file of its block. *)
Lemma exportOne_opens (dir : jsstring) (isBulk : bool) (indices : list nat)
    (index : nat) (w : world) :
  In index indices ->
  exists evs,
    log (snd (exportOne E cfg blocks base dir isBulk index w)) = log w ++ evs /\
    Forall (opensSelectedFile cfg blocks base dir isBulk indices) evs.
Proof.
  intros Hin.
  pose proof (exportOne_cases E cfg blocks base dir isBulk index w) as Hc.
  destruct (blocks !! index) as [block|] eqn:Hblock;
    [|destruct Hc as [e ->]; exists []; cbn; rewrite app_nil_r; auto].
  cbv zeta in Hc. destruct (rejects _) as [e|].
  - destruct Hc as (w1 & -> & _ & _ & Hl). eexists. split; [exact Hl|].
    repeat constructor.
  - destruct Hc as (w1 & _ & _ & _ & _ & Hl & ->).
    destruct (fst (polled E _ maxRetries 0)) as [svg|].
    + destruct (save_opens (prepend (fontStyle E) svg) index
                  (Extract.heading block) (Some dir) isBulk w1)
        as (evs & _ & _ & _ & Hl1 & Hq & _).
      eexists. split; [rewrite Hl1, Hl, <- app_assoc; reflexivity|].
      constructor; [exact I|]. apply Forall_app. split.
      * apply opensSelectedFile_sleeps.
      * eapply Forall_impl; [exact Hq|]. intros [] Hev; cbn in *; auto.
        destruct Hev as (Ha & Hs & Hp). repeat split; auto.
        exists index, block. repeat split; auto.
        intros Hdir. apply Hp. unfold targetPath, targetGiven.
        rewrite Hdir. reflexivity.
    + cbn. eexists. split; [rewrite Hl, <- app_assoc; reflexivity|].
      constructor; [exact I|]. apply Forall_app. split.
      * apply opensSelectedFile_sleeps.
      * repeat constructor.
Qed.

Lemma opened_bulk (dir : jsstring) (indices : list nat) (evs : list event) :
  Forall (opensSelectedFile cfg blocks base dir true indices) evs ->
  opened evs = [].
Proof.
  induction 1 as [|ev evs Hev _ IH]; [reflexivity|].
  destruct ev; cbn in *; try exact IH.
  destruct Hev as (_ & Hb & _). discriminate.
Qed.

Lemma opened_off (dir : jsstring) (isBulk : bool) (indices : list nat)
    (evs : list event) :
  autoOpen cfg = false ->
  Forall (opensSelectedFile cfg blocks base dir isBulk indices) evs ->
  opened evs = [].
Proof.
  intros Hoff. induction 1 as [|ev evs Hev _ IH]; [reflexivity|].
  destruct ev; cbn in *; try exact IH.
  destruct Hev as (Hon & _). congruence.
Qed.

(** X12: what an export into a chosen directory opens.  A bulk export (two
    blocks or more) opens no file; it opens the directory once, at the end,
    when [autoOpen] is on, even when the loop was cut short.  With
    [autoOpen] off nothing is opened.  A single-block export opens nothing
    but the file of that block. *)
Theorem export_opens (selected : list bool) (dir : jsstring)
    (rest : list jsstring) (w : world) :
  let indices := selectedIndices selected in
  let result := exportSelected E cfg blocks selected base w in
  indices <> [] ->
  dialogAvailable E = true ->
  showOpenDialog E = {| od_canceled := false; od_filePaths := dir :: rest |} ->
  exists evs,
    log (snd result) = log w ++ evs /\
    (1 < length indices ->
     opened evs = if autoOpen cfg then [dir] else []) /\
    (autoOpen cfg = false -> opened evs = []) /\
    (length indices = 1 -> truthy dir = true ->
     forall p, In p (opened evs) ->
       exists k block,
         indices = [k] /\ blocks !! k = Some block /\
         p = pathJoin dir
               (defaultFileName base (Extract.heading block) k
                  (outputFormat cfg))).
Proof.
  intros indices result Hsel Hdialog Hopen. subst result.
  destruct (exportSelected_exact E cfg blocks base dir selected rest w
              Hsel Hdialog Hopen) as (_ & _ & _ & _ & Hlog).
  cbv zeta in Hlog. fold indices in Hlog.
  set (isBulk := 1 <? length indices) in *.
  match type of Hlog with context [forOf ?l ?f ?w0] =>
    destruct (forOf_invariant
                (fun a b => exists evs, log b = log a ++ evs /\
                   Forall (opensSelectedFile cfg blocks base dir isBulk
                             indices) evs) f l) with (w := w0)
      as (evs & Hl & Hq);
    [ intros a; exists []; rewrite app_nil_r; auto
    | intros a b c (e1 & H1 & Q1) (e2 & H2 & Q2); exists (e1 ++ e2);
      rewrite H2, H1, app_assoc; split; [reflexivity|];
      apply Forall_app; auto
    | intros k w' Hk; apply exportOne_opens; exact Hk
    | ];
    generalize dependent (forOf l f w0) end.
  intros [loopResult wl] Hlog Hl. cbn [fst snd log] in *.
  exists ([OpenDirectoryDialog; CloseModal;
           Notice (exporting (length indices))]
          ++ evs ++ finishEvents loopResult ++ directoryOpened cfg isBulk dir).
  split; [rewrite Hlog, Hl, <- !app_assoc; reflexivity|].
  assert (Hopened :
            opened ([OpenDirectoryDialog; CloseModal;
                     Notice (exporting (length indices))]
                    ++ evs ++ finishEvents loopResult
                    ++ directoryOpened cfg isBulk dir)
            = opened evs ++ opened (directoryOpened cfg isBulk dir)).
  { rewrite !opened_app. destruct loopResult; reflexivity. }
  rewrite Hopened. clear Hopened.
  split; [|split].
  - intros Hbulk. assert (Hb : isBulk = true) by (apply Nat.ltb_lt; exact Hbulk).
    rewrite Hb in Hq. rewrite (opened_bulk dir indices evs Hq).
    unfold directoryOpened. rewrite Hb. cbn [andb app].
    destruct (autoOpen cfg); reflexivity.
  - intros Hoff. rewrite (opened_off dir isBulk indices evs Hoff Hq).
    unfold directoryOpened. rewrite Hoff, andb_false_r. reflexivity.
  - intros Hone Hdir p Hp.
    assert (Hb : isBulk = false).
    { unfold isBulk. rewrite Hone. reflexivity. }
    unfold directoryOpened in Hp. rewrite Hb in Hp. cbn [andb] in Hp.
    rewrite app_nil_r in Hp.
    unfold opened in Hp. apply in_flat_map in Hp as (ev & Hev & Hin).
    rewrite Forall_forall in Hq. apply list_elem_of_In in Hev.
    specialize (Hq ev Hev). destruct ev; cbn in Hin; try contradiction.
    destruct Hin as [<-|[]]. cbn in Hq.
    destruct Hq as (_ & _ & k & block & Hk & Hblock & Hpath).
    exists k, block. split; [|split; [exact Hblock | apply Hpath; exact Hdir]].
    destruct indices as [|k0 [|k1 more]]; try discriminate.
    destruct Hk as [<-|[]]. reflexivity.
Qed.

End OpenFacts.

Section OrderFacts.

Context `{Host} (E : env) (cfg : settings).
Context (blocks : list Extract.MermaidBlock) (base : jsstring).

Lemma loop_rendered (dir : jsstring) (isBulk : bool) (indices : list nat)
    (w : world) :
  (forall k, In k indices -> is_Some (blocks !! k)) ->
  (forall n markup, rejects (engine E n markup) = None) ->
  let loop := forOf indices (exportOne E cfg blocks base dir isBulk) w in
  exists evs,
    fst loop = Ok tt /\ log (snd loop) = log w ++ evs /\
    rendered evs = markupsOf E blocks indices.
Proof.
  intros Hblocks Hres. cbv zeta. revert w.
  induction indices as [|k rest IH]; intros w.
  - exists []. cbn. rewrite app_nil_r. auto.
  - cbn [forOf]. unfold bind.
    pose proof (exportOne_cases E cfg blocks base dir isBulk k w) as Hc.
    destruct (Hblocks k (or_introl eq_refl)) as [block Hblock].
    rewrite Hblock in Hc. cbv zeta in Hc. rewrite Hres in Hc.
    destruct Hc as (w1 & _ & _ & _ & _ & Hl & Hrun).
    assert (Hitem : exists w2 evs,
               exportOne E cfg blocks base dir isBulk k w = (Ok tt, w2) /\
               log w2 = log w1 ++ evs /\ rendered evs = []).
    { rewrite Hrun. destruct (fst (polled E _ maxRetries 0)) as [svg|].
      - pose proof (save_returns E cfg (prepend (fontStyle E) svg) base k
                      (Extract.heading block) (Some dir) isBulk w1) as Hok.
        destruct (save_steady E cfg (prepend (fontStyle E) svg) base k
                    (Extract.heading block) (Some dir) isBulk w1)
          as (evs & _ & _ & _ & Hl1 & Hq & _).
        destruct (saveSvgAsImage _ _ _ _ _ _ _ _ w1) as [o w2].
        cbn [fst snd] in *. subst o. exists w2, evs.
        split; [reflexivity|]. split; [exact Hl1|].
        exact (rendered_saved _ _ Hq).
      - eexists _, _. split; [reflexivity|]. cbn. split; reflexivity. }
    destruct Hitem as (w2 & evs1 & -> & Hl2 & Hr1).
    destruct (IH (fun k' Hk' => Hblocks k' (or_intror Hk')) w2)
      as (evs2 & Hok & Hl3 & Hr2).
    eexists. split; [exact Hok|].
    split; [rewrite Hl3, Hl2, Hl, <- !app_assoc; reflexivity|].
    cbn [app]. change (Render ?m :: ?l) with ([Render m] ++ l).
    rewrite !rendered_app, rendered_sleeps, Hr1, Hr2.
    unfold markupsOf. cbn [flat_map]. rewrite Hblock. reflexivity.
Qed.

(** X13: when no render call rejects, the blocks are rendered one after the
    other in the order of the note: the render calls of an export are, in
    this order, those for the ticked blocks by rising position. *)
Theorem export_renders_in_order (selected : list bool) (dir : jsstring)
    (rest : list jsstring) (w : world) :
  let indices := selectedIndices selected in
  let result := exportSelected E cfg blocks selected base w in
  indices <> [] ->
  length selected = length blocks ->
  dialogAvailable E = true ->
  showOpenDialog E = {| od_canceled := false; od_filePaths := dir :: rest |} ->
  (forall n markup, rejects (engine E n markup) = None) ->
  exists evs,
    log (snd result) = log w ++ evs /\
    rendered evs = markupsOf E blocks indices /\
    length (rendered evs) = length indices /\
    increasing indices.
Proof.
  intros indices result Hsel Hlen Hdialog Hopen Hres. subst result.
  destruct (exportSelected_exact E cfg blocks base dir selected rest w
              Hsel Hdialog Hopen) as (_ & _ & _ & _ & Hlog).
  cbv zeta in Hlog. fold indices in Hlog.
  assert (Hblocks : forall k, In k indices -> is_Some (blocks !! k)).
  { intros k. apply selected_in_range. exact Hlen. }
  match type of Hlog with context [forOf ?l ?f ?w0] =>
    destruct (loop_rendered dir (1 <? length indices) indices w0 Hblocks Hres)
      as (evs & Hok & Hl & Hr);
    generalize dependent (forOf l f w0) end.
  intros [loopResult wl] Hlog Hok Hl. cbn [fst snd log] in *. subst loopResult.
  exists ([OpenDirectoryDialog; CloseModal;
           Notice (exporting (length indices))]
          ++ evs ++ finishEvents (Ok tt)
          ++ directoryOpened cfg (1 <? length indices) dir).
  split; [rewrite Hlog, Hl, <- !app_assoc; reflexivity|].
  assert (Hrendered :
            rendered ([OpenDirectoryDialog; CloseModal;
                       Notice (exporting (length indices))]
                      ++ evs ++ finishEvents (Ok tt)
                      ++ directoryOpened cfg (1 <? length indices) dir)
            = rendered evs).
  { rewrite !rendered_app. unfold directoryOpened.
    destruct ((1 <? length indices) && autoOpen cfg); cbn;
      rewrite app_nil_r; reflexivity. }
  rewrite Hrendered, Hr. split; [reflexivity|]. split.
  - unfold markupsOf. clear -Hblocks.
    induction indices as [|k ks IH]; [reflexivity|].
    cbn [flat_map]. destruct (Hblocks k (or_introl eq_refl)) as [b ->].
    cbn. f_equal. apply IH. intros k' Hk'. apply Hblocks. right. exact Hk'.
  - subst indices. rewrite selectedIndices_ticked. apply ticked_increasing.
Qed.

End OrderFacts.

(** ** The selection modal *)

Section ModalFacts.

Import Modal.

Lemma ticked_all (off n : nat) : ticked off (replicate n true) = seq off n.
Proof.
  revert off. induction n as [|n IH]; intros off; [reflexivity|].
  cbn [replicate ticked seq app]. f_equal. apply IH.
Qed.

Lemma ticked_none (off n : nat) : ticked off (replicate n false) = [].
Proof.
  revert off. induction n as [|n IH]; intros off; [reflexivity|].
  cbn [replicate ticked app]. apply IH.
Qed.

Lemma assign_length (index : nat) (checked : bool) (l : list bool) :
  index < length l -> length (assign index checked l) = length l.
Proof.
  intros Hlt. unfold assign.
  destruct (Nat.ltb_spec index (length l)); [|lia]. apply length_insert.
Qed.

(** X14: whatever the user does in the modal, there stays one box for each
    block, so every index the export handler works through names a block. *)
Theorem modal_boxes_match_blocks (blocks : list Extract.MermaidBlock)
    (acts : list action) (st : state) :
  reaches (create blocks) acts st ->
  mermaidBlocks st = blocks /\
  length (selected st) = length blocks /\
  forall k, In k (selectedIndices (selected st)) -> is_Some (blocks !! k).
Proof.
  intros Hreach.
  assert (Hinv : mermaidBlocks st = blocks /\
                 length (selected st) = length blocks).
  { assert (Hstart : mermaidBlocks (create blocks) = blocks /\
                     length (selected (create blocks)) = length blocks).
    { split; [reflexivity|]. cbn. apply length_replicate. }
    revert Hstart Hreach. generalize (create blocks) as st0.
    induction acts as [|a acts IH]; intros st0 Hstart Hreach.
    - cbn in Hreach. subst st. exact Hstart.
    - destruct Hreach as [Hposs Hreach]. apply (IH (act st0 a)); [|exact Hreach].
      destruct Hstart as [Hb Hl].
      destruct a as [| |index checked]; cbn [act selectAll deselectAll check
                                               mermaidBlocks selected].
      + split; [exact Hb|]. rewrite length_replicate. exact Hl.
      + split; [exact Hb|]. rewrite length_replicate. exact Hl.
      + split; [exact Hb|]. cbn in Hposs. rewrite assign_length; [exact Hl|].
        rewrite Hl, <- Hb. exact Hposs. }
  destruct Hinv as [Hb Hl]. split; [exact Hb|]. split; [exact Hl|].
  intros k Hk. apply (selected_in_range blocks (selected st) k Hl Hk).
Qed.

(** X15: the buttons and boxes of the modal do what they say: after
    [Select All] the handler works through every position, in order; after
    [Deselect All], and in a new modal, through none; and ticking or
    clearing the box of a block changes the selection of that block only. *)
Theorem modal_selection_controls (st : state) :
  selectedIndices (selected (selectAll st)) = seq 0 (length (selected st)) /\
  selectedIndices (selected (deselectAll st)) = [] /\
  (forall blocks, selectedIndices (selected (create blocks)) = []) /\
  forall index checked k,
    index < length (selected st) ->
    (In k (selectedIndices (selected (check index checked st))) <->
     if decide (k = index) then checked = true
     else In k (selectedIndices (selected st))).
Proof.
  split; [|split; [|split]].
  - rewrite selectedIndices_ticked. apply ticked_all.
  - rewrite selectedIndices_ticked. apply ticked_none.
  - intros blocks. rewrite selectedIndices_ticked. apply ticked_none.
  - intros index checked k Hlt.
    destruct (decide (k = index)) as [->|Hne]; rewrite !selectedIndices_spec;
      cbn [check selected]; unfold assign;
      (destruct (Nat.ltb_spec index (length (selected st))); [|lia]).
    + rewrite list_lookup_insert_eq by exact Hlt. split; congruence.
    + rewrite list_lookup_insert_ne by congruence. reflexivity.
Qed.

Lemma splitLines_no_newline (s : jsstring) :
  Forall (Forall (fun c => c <> LF)) (splitLines s).
Proof.
  induction s as [|c s IH]; [repeat constructor|].
  cbn [splitLines]. destruct (N.eqb_spec c LF) as [->|Hne].
  - constructor; [constructor | exact IH].
  - destruct (splitLines s) as [|line lines]; [repeat constructor; exact Hne|].
    inversion IH; subst. constructor; [constructor; assumption | assumption].
Qed.

Lemma splitLines_spaces (s : jsstring) :
  Forall (fun c => isSpace c = true) s ->
  Forall (Forall (fun c => isSpace c = true)) (splitLines s).
Proof.
  induction 1 as [|c s Hc _ IH]; [repeat constructor|].
  cbn [splitLines]. destruct (N.eqb c LF).
  - constructor; [constructor | exact IH].
  - destruct (splitLines s) as [|line lines]; [repeat constructor; exact Hc|].
    inversion IH; subst. constructor; [constructor; assumption | assumption].
Qed.

Lemma trim_spaces (s : jsstring) :
  Forall (fun c => isSpace c = true) s -> trim s = [].
Proof.
  intros Hs. unfold trim, trimEnd.
  assert (Hstart : trimStart s = []).
  { induction Hs as [|c s Hc _ IH]; [reflexivity|].
    cbn [trimStart]. rewrite Hc. exact IH. }
  rewrite Hstart. reflexivity.
Qed.

Lemma joinWith_no_newline (sep : jsstring) (lines : list jsstring) :
  Forall (fun c => c <> LF) sep ->
  Forall (Forall (fun c => c <> LF)) lines ->
  Forall (fun c => c <> LF) (joinWith sep lines).
Proof.
  intros Hsep. induction 1 as [|line lines Hline Hlines IH]; [constructor|].
  cbn [joinWith]. destruct lines as [|next more]; [exact Hline|].
  apply Forall_app. split; [exact Hline|].
  apply Forall_app. split; [exact Hsep | exact IH].
Qed.

(** X16: the preview shown for a block in the list is a single line (it
    holds no line feed) and is never empty; a block of white space only is
    shown as [Empty block]. *)
Theorem preview_single_line (code : jsstring) :
  Forall (fun c => c <> LF) (previewLabel code) /\
  truthy (previewLabel code) = true /\
  (Forall (fun c => isSpace c = true) code ->
   previewLabel code = lit "Empty block").
Proof.
  split; [|split].
  - unfold previewLabel. destruct (truthy (previewText code));
      [|repeat constructor; discriminate].
    unfold previewText. apply Forall_app. split.
    + apply joinWith_no_newline; [repeat constructor; discriminate|].
      apply Forall_take. rewrite Forall_forall. intros l Hl.
      apply list_elem_of_In, filter_In in Hl as [Hl _].
      pose proof (splitLines_no_newline code) as Hall.
      rewrite Forall_forall in Hall. apply Hall, list_elem_of_In. exact Hl.
    + destruct (2 <? _); repeat constructor; discriminate.
  - unfold previewLabel. destruct (truthy (previewText code)) eqn:Ht;
      [exact Ht | reflexivity].
  - intros Hs. unfold previewLabel, previewText.
    assert (Hnone : List.filter (fun l => negb (jseqb (trim l) []))
                      (splitLines code) = []).
    { pose proof (splitLines_spaces code Hs) as Hall.
      induction Hall as [|l ls Hl _ IH]; [reflexivity|].
      cbn [List.filter]. rewrite (trim_spaces l Hl). cbn. exact IH. }
    rewrite Hnone. reflexivity.
Qed.

End ModalFacts.

(** ** The command and the settings *)

Section CommandFacts.

Import Command.

(** X17: the command opens the modal exactly when the note has a mermaid
    code section, with one unticked box for each; a note without one gets
    the notice [No mermaid blocks found in this note.] and no modal.
    Pressing [Export Selected] in the modal as it opens shows
    [No blocks selected] and does nothing else. *)
Theorem command_opens_modal `{Host} (E : env) (cfg : settings)
    (f : file) (content : jsstring) (w : world) :
  read f = inr content ->
  let count :=
    length (List.filter (Extract.isMermaidSection content)
              (Spec.sectionsOf (cache f))) in
  if count =? 0 then
    exportMermaidDiagrams (Some f) w
    = (Ok None,
       {| body := body w; nextId := nextId w; renders := renders w;
          files := files w;
          log := log w
                 ++ [Notice (lit "No mermaid blocks found in this note.")] |})
  else
    exists st,
      exportMermaidDiagrams (Some f) w = (Ok (Some st), w) /\
      Modal.mermaidBlocks st = Extract.extractMermaidBlocks content (cache f) /\
      length (Modal.mermaidBlocks st) = count /\
      Modal.selected st = replicate count false /\
      exportSelected E cfg (Modal.mermaidBlocks st) (Modal.selected st)
        (basename f) w
      = (Ok tt,
         {| body := body w; nextId := nextId w; renders := renders w;
            files := files w;
            log := log w ++ [Notice (lit "No blocks selected")] |}).
Proof.
  intros Hread count. unfold exportMermaidDiagrams. rewrite Hread.
  assert (Hlen : length (Extract.extractMermaidBlocks content (cache f))
                 = count).
  { rewrite extract_filter. apply length_map. }
  rewrite Hlen.
  destruct (count =? 0) eqn:Hc; [reflexivity|].
  eexists. split; [reflexivity|]. cbn [Modal.create Modal.mermaidBlocks
                                         Modal.selected].
  split; [reflexivity|]. split; [exact Hlen|]. rewrite Hlen.
  split; [reflexivity|].
  unfold exportSelected. rewrite selectedIndices_ticked, ticked_none.
  reflexivity.
Qed.

End CommandFacts.

Section StoredFacts.

Import Stored.

Lemma default_keys (key : list N) :
  is_Some (DEFAULT_SETTINGS !! key) <->
  key = lit "imageScale" \/ key = lit "format" \/ key = lit "autoOpen"
  \/ key = lit "overwrite".
Proof.
  unfold DEFAULT_SETTINGS. rewrite <- elem_of_dom.
  rewrite !dom_insert_L, dom_singleton_L. set_solver.
Qed.

(** X18: loading the settings fills in what is missing: each of the four
    fields is there after loading, with the stored value when the data has
    one and the default otherwise; with no data at all the settings are the
    defaults, scale 2, PNG, opening and overwriting on. *)
Theorem load_backfills_defaults (data : option (gmap (list N) value)) :
  (forall key, is_Some (DEFAULT_SETTINGS !! key) ->
               is_Some (loadSettings data !! key)) /\
  (forall d key v, data = Some d -> d !! key = Some v ->
                   loadSettings data !! key = Some v) /\
  (forall d key, data = Some d -> d !! key = None ->
                 loadSettings data !! key = DEFAULT_SETTINGS !! key) /\
  typed (loadSettings None)
  = Some {| imageScale := ofZ 2; outputFormat := PNG; autoOpen := true;
            overwrite := true |}.
Proof.
  split; [|split; [|split]].
  - intros key [v Hv]. unfold loadSettings.
    destruct (default ∅ data !! key) as [x|] eqn:Hx.
    + exists x. apply lookup_union_Some_l. exact Hx.
    + exists v. rewrite lookup_union_r; assumption.
  - intros d key v -> Hv. apply lookup_union_Some_l. exact Hv.
  - intros d key -> Hnone. apply lookup_union_r. exact Hnone.
  - vm_compute. reflexivity.
Qed.

(** X19: settings survive saving and loading: what was loaded, saved and
    loaded again is the same; and a field changed in the settings tab has
    the new value after the next load, the other fields being kept. *)
Theorem settings_round_trip (data : option (gmap (list N) value)) :
  loadSettings (saveSettings (loadSettings data)) = loadSettings data /\
  forall key v key',
    loadSettings (snd (change key v (loadSettings data))) !! key'
    = if decide (key = key') then Some v else loadSettings data !! key'.
Proof.
  assert (Hidem : forall m : gmap (list N) value,
             (m ∪ DEFAULT_SETTINGS) ∪ DEFAULT_SETTINGS = m ∪ DEFAULT_SETTINGS).
  { intros m. rewrite <- (assoc (∪)), (idemp (∪)). reflexivity. }
  split; [apply Hidem|].
  intros key v key'. unfold change, saveSettings. cbn [snd].
  unfold loadSettings at 1. cbn [default from_option id].
  destruct (decide (key = key')) as [->|Hne].
  - apply lookup_union_Some_l. apply lookup_insert_eq.
  - unfold loadSettings. rewrite <- insert_union_l, Hidem.
    apply lookup_insert_ne. exact Hne.
Qed.

End StoredFacts.

(** ** The header buttons *)

Section HeaderFacts.

Import Header.

Lemma carries_El (c : jsstring) tag cls attrs vb kids :
  carries c (El tag cls attrs vb kids)
  = hasClass c (El tag cls attrs vb kids) || holds c kids.
Proof.
  cbn [carries]. f_equal.
Qed.

Lemma without_El (c : jsstring) tag cls attrs vb kids :
  without c (El tag cls attrs vb kids)
  = if hasClass c (El tag cls attrs vb kids) then None
    else Some (El tag cls attrs vb (removeAll c kids)).
Proof.
  cbn [without]. destruct (hasClass c _); [reflexivity|].
  do 2 f_equal. induction kids as [|k kids IH]; [reflexivity|].
  cbn [removeAll]. rewrite <- IH. reflexivity.
Qed.

(** Nothing is removed from a tree that holds no such element. *)
Lemma without_plain (c : jsstring) (n : node) :
  carries c n = false -> without c n = Some n.
Proof.
  induction n as [s|tag cls attrs vb kids IH] using node_ind';
    [reflexivity|].
  rewrite carries_El, without_El. intros Hc.
  apply orb_false_iff in Hc as [Hself Hkids]. rewrite Hself. clear Hself.
  do 2 f_equal. unfold holds in Hkids.
  induction IH as [|k kids Hk _ IHkids]; [reflexivity|].
  cbn [existsb] in Hkids. apply orb_false_iff in Hkids as [Hk' Hrest].
  cbn [removeAll]. rewrite (Hk Hk'). f_equal. apply IHkids. exact Hrest.
Qed.

Lemma removeAll_plain (c : jsstring) (kids : list node) :
  holds c kids = false -> removeAll c kids = kids.
Proof.
  unfold holds. induction kids as [|k kids IH]; [reflexivity|].
  cbn [existsb removeAll]. intros Hc.
  apply orb_false_iff in Hc as [Hk Hrest].
  rewrite (without_plain c k Hk). f_equal. apply IH. exact Hrest.
Qed.

(** What is left after the removal holds no such element. *)
Lemma without_clean (c : jsstring) (n n' : node) :
  without c n = Some n' -> carries c n' = false.
Proof.
  revert n'. induction n as [s|tag cls attrs vb kids IH] using node_ind';
    intros n'.
  - intros Heq. injection Heq as <-. reflexivity.
  - rewrite without_El. destruct (hasClass c _) eqn:Hself; [discriminate|].
    intros Heq. injection Heq as <-. rewrite carries_El.
    apply orb_false_iff. split; [exact Hself|].
    unfold holds. clear Hself.
    induction IH as [|k kids Hk _ IHkids]; [reflexivity|].
    cbn [removeAll]. destruct (without c k) as [k'|] eqn:Hw; [|exact IHkids].
    cbn [existsb]. rewrite (Hk k' eq_refl). exact IHkids.
Qed.

Lemma removeAll_clean (c : jsstring) (kids : list node) :
  holds c (removeAll c kids) = false.
Proof.
  unfold holds. induction kids as [|k kids IH]; [reflexivity|].
  cbn [removeAll]. destruct (without c k) as [k'|] eqn:Hw; [|exact IH].
  cbn [existsb]. rewrite (without_clean c k k' Hw). exact IH.
Qed.

Lemma action_carries : carries exporterAction action = true.
Proof. reflexivity. Qed.

Lemma addButton_idempotent (l : leaf) : addButton (addButton l) = addButton l.
Proof.
  destruct l as [[|] [kids|]]; try reflexivity.
  unfold addButton at 2. cbn [markdown headerEl].
  destruct (holds exporterAction kids) eqn:Hc; cbn [negb].
  - unfold addButton. cbn [markdown headerEl]. rewrite Hc. reflexivity.
  - unfold addButton at 1. cbn [markdown headerEl].
    assert (Hnow : holds exporterAction (action :: kids) = true) by reflexivity.
    rewrite Hnow. cbn [negb].
    unfold addButton. cbn [markdown headerEl]. rewrite Hc. reflexivity.
Qed.

(** X20: [addHeaderButtons] may run any number of times (it runs on every
    layout change): after the first run every Markdown view with a header
    has the export button there, a second run changes nothing, and a leaf
    that is no Markdown view or has no header is left alone. *)
Theorem header_buttons_added_once (leaves : list leaf) :
  addHeaderButtons (addHeaderButtons leaves) = addHeaderButtons leaves /\
  length (addHeaderButtons leaves) = length leaves /\
  forall i l,
    leaves !! i = Some l ->
    exists l',
      addHeaderButtons leaves !! i = Some l' /\
      markdown l' = markdown l /\
      match headerEl l with
      | Some kids =>
          if markdown l then
            headerEl l'
            = Some (if holds exporterAction kids then kids else action :: kids)
            /\ (forall kids', headerEl l' = Some kids' ->
                              holds exporterAction kids' = true)
          else l' = l
      | None => l' = l
      end.
Proof.
  split; [|split].
  - unfold addHeaderButtons. rewrite map_map. apply map_ext.
    apply addButton_idempotent.
  - apply length_map.
  - intros i l Hi. exists (addButton l).
    unfold addHeaderButtons. rewrite lookup_map, Hi.
    split; [reflexivity|]. unfold addButton.
    destruct (markdown l) eqn:Hm.
    + destruct (headerEl l) as [kids|] eqn:Hh.
      * destruct (holds exporterAction kids) eqn:Hc;
          cbn [negb markdown headerEl].
        -- split; [exact Hm|]. rewrite Hh. split; [reflexivity|].
           intros kids' Hk. injection Hk as <-. exact Hc.
        -- split; [reflexivity|]. split; [reflexivity|].
           intros kids' Hk. injection Hk as <-. reflexivity.
      * split; [exact Hm | reflexivity].
    + split; [exact Hm|]. destruct (headerEl l); reflexivity.
Qed.

(** X21: unloading the plugin leaves no button of it behind: after
    [onunload] no header of a Markdown view holds an element with the class
    of the button; and for leaves that had none before the plugin added its
    buttons, unloading gives back the leaves as they were. *)
Theorem unload_removes_buttons (leaves : list leaf) :
  Forall plain (onunload leaves) /\
  (Forall plain leaves -> onunload (addHeaderButtons leaves) = leaves).
Proof.
  split.
  - unfold onunload. apply Forall_forall. intros l Hl.
    apply list_elem_of_In, in_map_iff in Hl as (l0 & <- & _).
    unfold plain, removeButtons. destruct (markdown l0) eqn:Hm.
    + destruct (headerEl l0) as [kids|] eqn:Hh; cbn [markdown headerEl].
      * intros _ kids' Hk. injection Hk as <-. apply removeAll_clean.
      * intros _ kids' Hk. congruence.
    + intros Hmd. congruence.
  - intros Hplain. unfold onunload, addHeaderButtons. rewrite map_map.
    rewrite <- (map_id leaves) at 2. apply map_ext_in. intros l Hl.
    rewrite Forall_forall in Hplain.
    specialize (Hplain l (proj2 (list_elem_of_In _ _) Hl)).
    unfold plain in Hplain.
    destruct l as [[|] [kids|]]; cbn [markdown headerEl] in Hplain;
      try reflexivity.
    specialize (Hplain eq_refl kids eq_refl).
    unfold addButton. cbn [markdown headerEl]. rewrite Hplain. cbn [negb].
    unfold removeButtons. cbn [markdown headerEl removeAll].
    assert (Hact : without exporterAction action = None) by reflexivity.
    rewrite Hact, (removeAll_plain _ kids Hplain). reflexivity.
Qed.

End HeaderFacts.

(** ** Runs of the further properties *)

Section FurtherExamples.

#[local] Existing Instance Sample.host.


Lemma copy_button_hides_later_svg_witness :
  exists w',
    renderMermaidToSvg Sample2.button_env (lit "graph TD") Sample.start
    = (Ok None, w') /\
    log w' = log Sample.start
             ++ Render (renderMarkup Sample2.button_env (lit "graph TD"))
                :: repeat (Sleep 50) 200.
Proof.
  apply (copy_button_hides_later_svg Sample2.button_env (lit "graph TD")
           Sample.start (lit "button") [copyCodeButton] [] (zero, zero)
           (El (lit "svg") [lit "svg-icon"] [] (zero, zero) []) []
           (fun _ => [Sample.drawing])).
  - reflexivity.
  - reflexivity.
  - reflexivity.
  - intros i. reflexivity.
Defined.


Lemma save_into_directory_witness :
  files (snd (saveSvgAsImage Sample.drawing_env Sample.png Sample.drawing
                (lit "Notes") 0 (lit "Sys/Arch") (Some (lit "/out")) false
                Sample.taken))
  = <[ lit "/out/Notes-Sys-Arch-1.png"
       := File [Byte.x89; Byte.x50; Byte.x4e; Byte.x47] ]>
      (files Sample.taken).
Proof.
  refine (proj1 (proj2 (save_into_directory Sample.drawing_env Sample.png
                          Sample.drawing (lit "Notes") 0 (lit "Sys/Arch")
                          (lit "/out") false
                          [Byte.x89; Byte.x50; Byte.x4e; Byte.x47]
                          Sample.taken _ _ _))).
  - reflexivity.
  - reflexivity.
  - left. reflexivity.
Defined.

Lemma save_with_prompt_witness :
  files (snd (saveSvgAsImage Sample2.quoted_env (Sample.config 1 PNG false)
                Sample.drawing (lit "Notes") 0 (lit "Sys/Arch") None false
                Sample2.kept))
  = <[ lit "/home/me/Notes-Sys-Arch-1.png"
       := File [Byte.x89; Byte.x50; Byte.x4e; Byte.x47] ]>
      (files Sample2.kept).
Proof.
  refine (proj1 (save_with_prompt Sample2.quoted_env
                   (Sample.config 1 PNG false) Sample.drawing (lit "Notes") 0
                   (lit "Sys/Arch") None false
                   [Byte.x89; Byte.x50; Byte.x4e; Byte.x47]
                   Sample2.kept _ _)).
  - reflexivity.
  - reflexivity.
Defined.

Lemma export_gives_up_early_witness :
  log (snd (exportSelected Sample2.quoted_env Sample.png Sample.blocks
              [true; false] (lit "Notes") Sample.start))
  = log Sample.start ++ [OpenDirectoryDialog].
Proof.
  refine (proj2 (proj2 (proj2 (proj2
            (export_gives_up_early Sample2.quoted_env Sample.png Sample.blocks
               (lit "Notes") [true; false] Sample.start _))))).
  left. reflexivity.
Defined.

Lemma export_keeps_existing_files_witness :
  files Sample.taken
  ⊆ files (snd (exportSelected Sample.drawing_env (Sample.config 1 PNG false)
                  Sample.blocks [true; true] (lit "Notes") Sample.taken)).
Proof.
  apply export_keeps_existing_files.
  - reflexivity.
  - intros dir rest Hd. injection Hd as <- _. reflexivity.
Defined.

Lemma export_leaves_no_container_witness :
  body (snd (exportSelected Sample.idle_env Sample.png Sample.blocks
               [true; true] (lit "Notes") Sample.start))
  = body Sample.start.
Proof.
  apply export_leaves_no_container.
  - intros x [].
  - intros n markup. reflexivity.
Defined.

Lemma export_opens_witness :
  exists evs,
    log (snd (exportSelected Sample.drawing_env Sample.png Sample.blocks
                [true; true] (lit "Notes") Sample.start))
    = log Sample.start ++ evs /\
    opened evs = [lit "/out"].
Proof.
  destruct (export_opens Sample.drawing_env Sample.png Sample.blocks
              (lit "Notes") [true; true] (lit "/out") [] Sample.start)
    as (evs & Hl & Hbulk & _).
  - vm_compute. discriminate.
  - reflexivity.
  - reflexivity.
  - exists evs. split; [exact Hl|]. apply Hbulk. vm_compute. constructor.
Defined.

Lemma export_renders_in_order_witness :
  exists evs,
    log (snd (exportSelected Sample.drawing_env Sample.png Sample.blocks
                [true; true] (lit "Notes") Sample.start))
    = log Sample.start ++ evs /\
    rendered evs
    = [renderMarkup Sample.drawing_env (lit "graph TD");
       renderMarkup Sample.drawing_env (lit "graph LR")].
Proof.
  destruct (export_renders_in_order Sample.drawing_env Sample.png
              Sample.blocks (lit "Notes") [true; true] (lit "/out") []
              Sample.start)
    as (evs & Hl & Hr & _).
  - vm_compute. discriminate.
  - reflexivity.
  - reflexivity.
  - reflexivity.
  - intros n markup. reflexivity.
  - exists evs. split; [exact Hl | exact Hr].
Defined.

Lemma modal_boxes_match_blocks_witness :
  length (Modal.selected
            (Modal.check 0 false (Modal.selectAll (Modal.create Sample.blocks))))
  = length Sample.blocks.
Proof.
  refine (proj1 (proj2 (modal_boxes_match_blocks Sample.blocks
                          [Modal.SelectAll; Modal.Check 0 false] _ _))).
  cbn. repeat split. lia.
Defined.

Lemma modal_selection_controls_witness :
  In 1 (selectedIndices
          (Modal.selected (Modal.check 1 true (Modal.create Sample.blocks)))).
Proof.
  apply (proj2 (proj2 (proj2 (modal_selection_controls
                                (Modal.create Sample.blocks)))) 1 true 1).
  - cbn. lia.
  - reflexivity.
Defined.

Lemma preview_single_line_witness :
  Modal.previewLabel (lit "  " ++ [LF] ++ lit " ") = lit "Empty block".
Proof.
  apply (proj2 (proj2 (preview_single_line (lit "  " ++ [LF] ++ lit " ")))).
  repeat constructor.
Defined.

End FurtherExamples.


Section FurtherExamples2.

#[local] Existing Instance Sample.host.

Lemma command_opens_modal_witness :
  exists st,
    Command.exportMermaidDiagrams (Some Sample2.note) Sample.start
    = (Ok (Some st), Sample.start) /\
    length (Modal.mermaidBlocks st) = 1 /\
    Modal.selected st = [false].
Proof.
  destruct (command_opens_modal Sample.drawing_env Sample.png Sample2.note
              Sample2.noteText Sample.start eq_refl
            : exists st,
                Command.exportMermaidDiagrams (Some Sample2.note) Sample.start
                = (Ok (Some st), Sample.start) /\
                Modal.mermaidBlocks st
                = Extract.extractMermaidBlocks Sample2.noteText
                    (Command.cache Sample2.note) /\
                length (Modal.mermaidBlocks st) = 1 /\
                Modal.selected st = [false] /\
                exportSelected Sample.drawing_env Sample.png
                  (Modal.mermaidBlocks st) (Modal.selected st)
                  (Command.basename Sample2.note) Sample.start
                = (Ok tt,
                   {| body := body Sample.start;
                      nextId := nextId Sample.start;
                      renders := renders Sample.start;
                      files := files Sample.start;
                      log := log Sample.start
                             ++ [Notice (lit "No blocks selected")] |}))
    as (st & Hrun & _ & Hlen & Hsel & _).
  exists st. split; [exact Hrun|]. split; [exact Hlen | exact Hsel].
Defined.

Lemma load_backfills_defaults_witness :
  Stored.loadSettings (Some {[ lit "imageScale" := Stored.Number (ofZ 5) ]})
    !! lit "imageScale"
  = Some (Stored.Number (ofZ 5)).
Proof.
  apply (proj1 (proj2 (load_backfills_defaults
                         (Some {[ lit "imageScale"
                                  := Stored.Number (ofZ 5) ]})))
           {[ lit "imageScale" := Stored.Number (ofZ 5) ]}).
  - reflexivity.
  - vm_compute. reflexivity.
Defined.

Lemma header_buttons_added_once_witness :
  exists l',
    Header.addHeaderButtons Sample2.leaves !! 0 = Some l' /\
    Header.headerEl l'
    = Some [Header.action;
            El (lit "a") [lit "view-action"] [] (zero, zero) []].
Proof.
  destruct (proj2 (proj2 (header_buttons_added_once Sample2.leaves)) 0
              {| Header.markdown := true;
                 Header.headerEl :=
                   Some [El (lit "a") [lit "view-action"] [] (zero, zero) []] |}
              eq_refl)
    as (l' & Hl & _ & Hh).
  exists l'. split; [exact Hl | exact (proj1 Hh)].
Defined.

Lemma unload_removes_buttons_witness :
  Header.onunload (Header.addHeaderButtons Sample2.leaves) = Sample2.leaves.
Proof.
  apply (proj2 (unload_removes_buttons Sample2.leaves)).
  repeat constructor.
  - intros _ kids Hk. injection Hk as <-. reflexivity.
  - intros Hm. discriminate Hm.
Defined.

End FurtherExamples2.
